(** * PlasticWatch: review workflow and offline queue

    A shallow embedding of
    - the classification engine, the PL/pgSQL procedures [is_admin],
      [classify_contribution] and [reject_contribution] together with the
      tables they read and write,
    - the review server action [classifyContribution] of
      [src/app/actions/review.ts],
    - the offline queue ([saveToOfflineQueue], [getOfflineQueue],
      [updateQueueItemStatus], [removeFromQueue]) and the sync manager
      ([syncQueue], [syncSingleContribution]),
    - what stands around them: the row-level policies on [contributions]
      and their first helper functions, the admin helpers of the server,
      the actions [rejectContribution] and [getContributionForReview], the
      queue statistics, the progress listeners and the extension
      [uploadFile] gives a stored object,
    followed by the properties of the specification stated over them and by
    further properties of the code. *)

From Stdlib Require Import Floats Ascii.
From stdpp Require Import gmap strings list fin_maps pretty sorting.

Open Scope string_scope.

(** ** SQL values *)

Definition text := string.
Definition uuid := string.
Definition timestamp := Z.
Definition float8 := float.

(** A nullable SQL boolean: [None] is NULL. *)
Definition sql_bool := option bool.

(** [a = b] where [a] may be NULL. *)
Definition sql_eq (a : option text) (b : text) : sql_bool :=
  (λ x, bool_decide (x = b)) <$> a.

Definition sql_not (b : sql_bool) : sql_bool := negb <$> b.

(** [a NOT IN (l)] for a list of non-null literals. *)
Definition sql_not_in (a : option text) (l : list text) : sql_bool :=
  (λ x, negb (bool_decide (x ∈ l))) <$> a.

(** The branch of [IF c THEN] is taken only when [c] is true; NULL and
    false both skip it. *)
Definition sql_if (c : sql_bool) : bool :=
  match c with Some true => true | _ => false end.

(** The scalar values the procedures put into JSON objects. *)
Inductive jvalue :=
| JNull
| JBool (b : bool)
| JText (s : text)
| JInt (z : Z).

(** A [jsonb] object as [jsonb_build_object] builds it: keys with values. *)
Definition jsonb := list (string * jvalue).

Definition to_jsonb (t : option text) : jvalue :=
  match t with Some s => JText s | None => JNull end.

Definition int_to_jsonb (z : option Z) : jvalue :=
  match z with Some n => JInt n | None => JNull end.

Definition jsonb_build_object (fields : list (string * jvalue)) : jsonb :=
  fields.

Fixpoint json_get (k : string) (j : jsonb) : option jvalue :=
  match j with
  | [] => None
  | (k', v) :: rest => if bool_decide (k' = k) then Some v else json_get k rest
  end.

(** The [success] flag of a procedure result. *)
Definition success (r : jsonb) : bool :=
  match json_get "success" r with Some (JBool b) => b | _ => false end.

(** ** Errors raised inside a PL/pgSQL block *)

Inductive result (A : Type) :=
| Ok (a : A)
| Raise (sqlerrm : string).
Arguments Ok {A} a.
Arguments Raise {A} sqlerrm.

#[global] Instance result_bind : MBind result := λ A B k m,
  match m with Ok a => k a | Raise e => Raise e end.
#[global] Instance result_ret : MRet result := λ A a, Ok a.

Definition raise_if (c : bool) (sqlerrm : string) : result unit :=
  if c then Raise sqlerrm else Ok tt.

(** ** Tables *)

(** [contributions]: the columns that the procedures and the review action
    assign. [status] is never NULL. *)
Record Contribution := {
  c_id : uuid;
  c_status : text;
  c_notes : option text;
  c_classified_by : option uuid;
  c_classified_at : option timestamp;
  c_brand : option text;
  c_manufacturer : option text;
  c_product_type : option text;
  c_plastic_type : option text;
  c_recyclability_indicator : option text;
  c_beach_name : option text;
  c_reviewer_feedback : option text
}.

Record Classification := {
  cl_id : uuid;
  cl_contribution_id : uuid;
  cl_brand : text;
  cl_manufacturer : text;
  cl_plastic_type : option text;
  cl_classified_by : uuid;
  cl_classified_at : timestamp;
  cl_admin_notes : option text;
  cl_confidence_level : option text;
  cl_created_at : timestamp;
  cl_updated_at : timestamp;
  cl_beach_id : option Z;
  cl_company_id : option Z;
  cl_product_type : option text;
  cl_beach_latitude : option float8;
  cl_beach_longitude : option float8
}.

Record ReviewHistory := {
  rh_id : uuid;
  rh_contribution_id : uuid;
  rh_admin_id : uuid;
  rh_action : text;
  rh_previous_status : option text;
  rh_new_status : option text;
  rh_changes : option jsonb;
  rh_reason : option text;
  rh_created_at : timestamp
}.

(** The columns of [contributions]: as the table was created, or after step
    3 of the refactor migration, which drops [classified_by],
    [classified_at], [brand], [manufacturer], [plastic_type] and
    [product_type] (with others that no procedure names). *)
Inductive Layout := as_created | refactored.

#[global] Instance Layout_eq_dec : EqDecision Layout.
Proof. solve_decision. Defined.

(** The database: the three tables of the review workflow, the columns
    [contributions] has, and the key sets of the tables their foreign keys
    point to. *)
Record DB := {
  contributions : list Contribution;
  classifications : list Classification;
  review_history : list ReviewHistory;
  auth_users : list uuid;
  beaches : list Z;
  companies : list Z;
  layout : Layout
}.

Definition with_contributions (db : DB) (cs : list Contribution) : DB :=
  {| contributions := cs; classifications := classifications db;
     review_history := review_history db; auth_users := auth_users db;
     beaches := beaches db; companies := companies db;
     layout := layout db |}.

Definition with_classifications (db : DB) (cls : list Classification) : DB :=
  {| contributions := contributions db; classifications := cls;
     review_history := review_history db; auth_users := auth_users db;
     beaches := beaches db; companies := companies db;
     layout := layout db |}.

Definition with_review_history (db : DB) (h : list ReviewHistory) : DB :=
  {| contributions := contributions db; classifications := classifications db;
     review_history := h; auth_users := auth_users db;
     beaches := beaches db; companies := companies db;
     layout := layout db |}.

(** The caller's token as [auth.jwt()] exposes it: the [role] entry of the
    protected and of the user-editable metadata, NULL when absent. *)
Record Jwt := {
  app_metadata_role : option text;
  user_metadata_role : option text
}.

(** What a call draws from its session: the caller's token, [now()] and the
    values [gen_random_uuid()] yields for the primary keys of new rows. *)
Record Session := {
  jwt : Jwt;
  now : timestamp;
  classification_uuid : uuid;
  history_uuid : uuid
}.

(** ** Access control: [is_admin] *)

(** The hardened [is_admin()]: the protected claim first, the user-editable
    claim as the fallback. The last [RETURN] hands back the comparison
    itself, which is NULL when the claim is absent. *)
Definition is_admin (t : Jwt) : sql_bool :=
  if sql_if (sql_eq (app_metadata_role t) "admin") then Some true
  else sql_eq (user_metadata_role t) "admin".

(** ** Constraints of the tables *)

Definition not_null {A} (column : string) (v : option A) : result A :=
  match v with
  | Some a => Ok a
  | None =>
      Raise ("null value in column " ++ column ++ " violates not-null constraint")
  end.

Definition references {A} `{EqDecision A}
    (constraint : string) (v : option A) (keys : list A) : result unit :=
  match v with
  | None => Ok tt
  | Some k =>
      raise_if (negb (bool_decide (k ∈ keys)))
        ("insert or update violates foreign key constraint " ++ constraint)
  end.

Definition unique_key (constraint : string) (k : uuid) (keys : list uuid)
    : result unit :=
  raise_if (bool_decide (k ∈ keys))
    ("duplicate key value violates unique constraint " ++ constraint).

(** ** The classification engine *)

Record ClassifyArgs := {
  p_contribution_id : option uuid;
  p_admin_id : option uuid;
  p_brand : option text;
  p_manufacturer : option text;
  p_plastic_type : option text;
  p_admin_notes : option text;
  p_confidence_level : option text;
  p_product_type : option text;
  p_beach_id : option Z;
  p_company_id : option Z;
  p_beach_latitude : option float8;
  p_beach_longitude : option float8
}.

Definition confidence_levels : list text := ["high"; "medium"; "low"].

(** How [RAISE] prints a parameter for [%]. *)
Definition fmt (v : option text) : string := default "<NULL>" v.

Definition has_id (id : uuid) (c : Contribution) : bool :=
  bool_decide (c_id c = id).

Definition classifies (id : uuid) (r : Classification) : bool :=
  bool_decide (cl_contribution_id r = id).

(** [SELECT status INTO v_old_status FROM contributions WHERE id = p]:
    NULL when no row matches. *)
Definition select_status (db : DB) (p : option uuid) : option text :=
  id ← p; c_status <$> find (has_id id) (contributions db).

Definition set_status (st : text) (c : Contribution) : Contribution :=
  {| c_id := c_id c; c_status := st; c_notes := c_notes c;
     c_classified_by := c_classified_by c;
     c_classified_at := c_classified_at c;
     c_brand := c_brand c; c_manufacturer := c_manufacturer c;
     c_product_type := c_product_type c; c_plastic_type := c_plastic_type c;
     c_recyclability_indicator := c_recyclability_indicator c;
     c_beach_name := c_beach_name c;
     c_reviewer_feedback := c_reviewer_feedback c |}.

(** [UPDATE contributions SET ... WHERE id = p]. *)
Definition update_contributions
    (f : Contribution → Contribution) (id : uuid) (db : DB) : DB :=
  with_contributions db
    ((λ c, if has_id id c then f c else c) <$> contributions db).

(** The [DO UPDATE SET] list of the upsert: every verified column is taken
    from the proposed row, [classified_at] and [updated_at] are refreshed,
    [id], [contribution_id] and [created_at] stay. *)
Definition do_update (s : Session) (excluded old : Classification)
    : Classification :=
  {| cl_id := cl_id old;
     cl_contribution_id := cl_contribution_id old;
     cl_brand := cl_brand excluded;
     cl_manufacturer := cl_manufacturer excluded;
     cl_plastic_type := cl_plastic_type excluded;
     cl_classified_by := cl_classified_by excluded;
     cl_classified_at := now s;
     cl_admin_notes := cl_admin_notes excluded;
     cl_confidence_level := cl_confidence_level excluded;
     cl_created_at := cl_created_at old;
     cl_updated_at := now s;
     cl_beach_id := cl_beach_id excluded;
     cl_company_id := cl_company_id excluded;
     cl_product_type := cl_product_type excluded;
     cl_beach_latitude := cl_beach_latitude excluded;
     cl_beach_longitude := cl_beach_longitude excluded |}.

(** [INSERT INTO classifications ... ON CONFLICT (contribution_id) DO UPDATE
    ... RETURNING id]. The proposed row gets the column defaults
    ([gen_random_uuid()], [now()]); the row constraints are checked on it,
    then it is appended, or merged into the row that holds the key. *)
Definition upsert_classification (s : Session) (a : ClassifyArgs)
    (id : uuid) (db : DB) : result (DB * uuid) :=
  brand ← not_null "brand" (p_brand a);
  manufacturer ← not_null "manufacturer" (p_manufacturer a);
  admin ← not_null "classified_by" (p_admin_id a);
  references "classifications_classified_by_fkey" (Some admin) (auth_users db);;
  references "classifications_beach_id_fkey" (p_beach_id a) (beaches db);;
  references "classifications_company_id_fkey" (p_company_id a) (companies db);;
  let proposed :=
    {| cl_id := classification_uuid s;
       cl_contribution_id := id;
       cl_brand := brand;
       cl_manufacturer := manufacturer;
       cl_plastic_type := p_plastic_type a;
       cl_classified_by := admin;
       cl_classified_at := now s;
       cl_admin_notes := p_admin_notes a;
       cl_confidence_level := p_confidence_level a;
       cl_created_at := now s;
       cl_updated_at := now s;
       cl_beach_id := p_beach_id a;
       cl_company_id := p_company_id a;
       cl_product_type := p_product_type a;
       cl_beach_latitude := p_beach_latitude a;
       cl_beach_longitude := p_beach_longitude a |} in
  match find (classifies id) (classifications db) with
  | Some old =>
      Ok (with_classifications db
            ((λ r, if classifies id r then do_update s proposed r else r)
               <$> classifications db),
          cl_id old)
  | None =>
      unique_key "classifications_pkey" (cl_id proposed)
        (cl_id <$> classifications db);;
      Ok (with_classifications db (classifications db ++ [proposed]),
          cl_id proposed)
  end.

(** [INSERT INTO review_history (...)]: the log grows at its end. *)
Definition insert_review_history (s : Session) (id : uuid)
    (admin_id : option uuid) (action : text) (previous_status : text)
    (new_status : text) (changes : option jsonb) (reason : option text)
    (db : DB) : result DB :=
  admin ← not_null "admin_id" admin_id;
  references "review_history_admin_id_fkey" (Some admin) (auth_users db);;
  unique_key "review_history_pkey" (history_uuid s)
    (rh_id <$> review_history db);;
  Ok (with_review_history db
        (review_history db ++
           [ {| rh_id := history_uuid s;
                rh_contribution_id := id;
                rh_admin_id := admin;
                rh_action := action;
                rh_previous_status := Some previous_status;
                rh_new_status := Some new_status;
                rh_changes := changes;
                rh_reason := reason;
                rh_created_at := now s |} ])).

(** [CASE WHEN v_old_status = 'classified' THEN 'reclassified' ELSE
    'classified' END]. *)
Definition classify_action (v_old_status : text) : text :=
  if bool_decide (v_old_status = "classified") then "reclassified"
  else "classified".

(** The [changes] object of the history row. *)
Definition classify_changes (a : ClassifyArgs) : jsonb :=
  jsonb_build_object
    [("brand", to_jsonb (p_brand a));
     ("manufacturer", to_jsonb (p_manufacturer a));
     ("plastic_type", to_jsonb (p_plastic_type a));
     ("product_type", to_jsonb (p_product_type a));
     ("beach_id", int_to_jsonb (p_beach_id a));
     ("confidence_level", to_jsonb (p_confidence_level a))].

(** The body of [classify_contribution] between [BEGIN] and [EXCEPTION]. *)
Definition classify_body (s : Session) (a : ClassifyArgs) (db : DB)
    : result (DB * jsonb) :=
  raise_if (sql_if (sql_not (is_admin (jwt s))))
    "Access denied: Admin privileges required";;
  raise_if (sql_if (sql_not_in (p_confidence_level a) confidence_levels))
    ("Invalid confidence level: " ++ fmt (p_confidence_level a));;
  match select_status db (p_contribution_id a), p_contribution_id a with
  | Some v_old_status, Some id =>
      let db1 := update_contributions (set_status "classified") id db in
      '(db2, v_classification_id) ← upsert_classification s a id db1;
      db3 ← insert_review_history s id (p_admin_id a)
              (classify_action v_old_status) v_old_status "classified"
              (Some (classify_changes a)) None db2;
      Ok (db3,
          jsonb_build_object
            [("success", JBool true);
             ("classification_id", JText v_classification_id);
             ("previous_status", JText v_old_status)])
  | _, _ => Raise ("Contribution not found: " ++ fmt (p_contribution_id a))
  end.

(** [EXCEPTION WHEN OTHERS]: whatever the body raised, its writes are undone
    and the message comes back in a failure object. *)
Definition exception_when_others (db : DB) (body : result (DB * jsonb))
    : DB * jsonb :=
  match body with
  | Ok out => out
  | Raise sqlerrm =>
      (db, jsonb_build_object
             [("success", JBool false); ("error", JText sqlerrm)])
  end.

Definition classify_contribution (s : Session) (a : ClassifyArgs) (db : DB)
    : DB * jsonb :=
  exception_when_others db (classify_body s a db).

(** [ALTER TABLE contributions DROP COLUMN IF EXISTS ...], step 3 of the
    refactor migration: the columns are gone, and with them what the rows
    held there. *)
Definition drop_columns (db : DB) : DB :=
  {| contributions :=
       (λ c, {| c_id := c_id c; c_status := c_status c; c_notes := c_notes c;
                c_classified_by := None; c_classified_at := None;
                c_brand := None; c_manufacturer := None;
                c_product_type := None; c_plastic_type := None;
                c_recyclability_indicator := c_recyclability_indicator c;
                c_beach_name := c_beach_name c;
                c_reviewer_feedback := c_reviewer_feedback c |})
         <$> contributions db;
     classifications := classifications db;
     review_history := review_history db; auth_users := auth_users db;
     beaches := beaches db; companies := companies db;
     layout := refactored |}.

(** The double quote, which the messages of the server put around names. *)
Definition dquote : string :=
  String (Ascii.Ascii false true false false false true false false) "".

(** What a statement that names a column the table does not have raises. *)
Definition undefined_column (column relation : string) : string :=
  "column " ++ dquote ++ column ++ dquote ++ " of relation "
    ++ dquote ++ relation ++ dquote ++ " does not exist".

(** The [SET] list of [reject_contribution]'s update. *)
Definition set_rejected (s : Session) (admin_id : option uuid)
    (reason : option text) (c : Contribution) : Contribution :=
  {| c_id := c_id c; c_status := "rejected"; c_notes := reason;
     c_classified_by := admin_id;
     c_classified_at := Some (now s);
     c_brand := c_brand c; c_manufacturer := c_manufacturer c;
     c_product_type := c_product_type c; c_plastic_type := c_plastic_type c;
     c_recyclability_indicator := c_recyclability_indicator c;
     c_beach_name := c_beach_name c;
     c_reviewer_feedback := c_reviewer_feedback c |}.

(** [DELETE FROM classifications WHERE contribution_id = p]. *)
Definition delete_classifications (id : uuid) (db : DB) : DB :=
  with_classifications db
    (filter (λ r, cl_contribution_id r ≠ id) (classifications db)).

(** The body of [reject_contribution]. Its update names [classified_by] and
    [classified_at]: on the refactored table the statement raises before
    any row is written. *)
Definition reject_body (s : Session) (p_contribution_id p_admin_id : option uuid)
    (p_reason : option text) (db : DB) : result (DB * jsonb) :=
  raise_if (sql_if (sql_not (is_admin (jwt s))))
    "Access denied: Admin privileges required";;
  match select_status db p_contribution_id, p_contribution_id with
  | Some v_old_status, Some id =>
      raise_if (bool_decide (layout db = refactored))
        (undefined_column "classified_by" "contributions");;
      references "contributions_classified_by_fkey" p_admin_id (auth_users db);;
      let db1 := update_contributions (set_rejected s p_admin_id p_reason) id db in
      let db2 := delete_classifications id db1 in
      db3 ← insert_review_history s id p_admin_id "rejected" v_old_status
              "rejected" None p_reason db2;
      Ok (db3,
          jsonb_build_object
            [("success", JBool true);
             ("previous_status", JText v_old_status)])
  | _, _ => Raise ("Contribution not found: " ++ fmt p_contribution_id)
  end.

Definition reject_contribution (s : Session)
    (p_contribution_id p_admin_id : option uuid) (p_reason : option text)
    (db : DB) : DB * jsonb :=
  exception_when_others db (reject_body s p_contribution_id p_admin_id p_reason db).

(** ** The review server action (src/app/actions/review.ts) *)

Record User := {
  u_id : uuid;
  u_app_metadata_role : option text;
  u_user_metadata_role : option text
}.

(** The reply of [supabase.auth.getUser()]. *)
Record AuthResponse := {
  data_user : option User;
  error : option string
}.

(** What a JavaScript [try] block can catch here. *)
Inductive thrown :=
| ZodError (issues : list string)
| Error (message : string).

Inductive js (A : Type) :=
| Return (a : A)
| Throw (e : thrown).
Arguments Return {A} a.
Arguments Throw {A} e.

#[global] Instance js_bind : MBind js := λ A B k m,
  match m with Return a => k a | Throw e => Throw e end.
#[global] Instance js_ret : MRet js := λ A a, Return a.

Definition isAdmin (user : option User) : bool :=
  match user with
  | None => false
  | Some u => bool_decide (u_user_metadata_role u = Some "admin")
  end.

Definition requireAdmin (r : AuthResponse) : js User :=
  match error r, data_user r with
  | None, Some user =>
      if isAdmin (Some user) then Return user
      else Throw (Error "Admin access required")
  | _, _ => Throw (Error "Authentication required")
  end.

Record ClassificationData := {
  brand : string;
  manufacturer : string;
  productType : string;
  plasticType : option string;
  recyclabilityIndicator : option string;
  beachName : option string;
  notes : option string;
  reviewerFeedback : option string
}.

(** [classificationSchema.parse]: the three required strings must be
    non-empty and the indicator, when given, one of the enum. A failed
    [min(1, message)] reports the message given; a failed [enum] reports
    the options and the value received. *)
Definition classificationSchema_issues (d : ClassificationData) : list string :=
  (if bool_decide (brand d = "") then ["Brand is required"] else []) ++
  (if bool_decide (manufacturer d = "") then ["Manufacturer is required"] else []) ++
  (if bool_decide (productType d = "") then ["Product type is required"] else []) ++
  match recyclabilityIndicator d with
  | Some r =>
      if bool_decide (r ∈ ["high"; "medium"; "low"]) then []
      else ["Invalid enum value. Expected 'high' | 'medium' | 'low', received '"
              ++ r ++ "'"]
  | None => []
  end.

Definition classificationSchema_parse (d : ClassificationData)
    : js ClassificationData :=
  match classificationSchema_issues d with
  | [] => Return d
  | issues => Throw (ZodError issues)
  end.

(** [v || null] on an optional string: the empty string is falsy. *)
Definition or_null (v : option string) : option string :=
  match v with
  | Some s => if bool_decide (s = "") then None else Some s
  | None => None
  end.

(** What surrounds one run of a server action: the reply of the auth
    service, the clock, and the error the store client reports for the
    request, if any. *)
Record ServerEnv := {
  getUser : AuthResponse;
  new_Date : timestamp;
  request_error : option string
}.

(** The column values of [.update({...})] in [classifyContribution]. *)
Definition classified_fields (admin : User) (at_ : timestamp)
    (v : ClassificationData) (c : Contribution) : Contribution :=
  {| c_id := c_id c;
     c_status := "classified";
     c_notes := c_notes c;
     c_classified_by := Some (u_id admin);
     c_classified_at := Some at_;
     c_brand := Some (brand v);
     c_manufacturer := Some (manufacturer v);
     c_product_type := Some (productType v);
     c_plastic_type := or_null (plasticType v);
     c_recyclability_indicator := or_null (recyclabilityIndicator v);
     c_beach_name := or_null (beachName v);
     c_reviewer_feedback := or_null (reviewerFeedback v) |}.

(** The claims the store sees for the requests of [user]. *)
Definition claims (user : User) : Jwt :=
  {| app_metadata_role := u_app_metadata_role user;
     user_metadata_role := u_user_metadata_role user |}.

(** [supabase.from('contributions').update(f).eq('id', id)]: a failed
    request changes nothing; otherwise the rows the update policy
    [admins_update_contributions] lets the caller see are rewritten. *)
Definition from_contributions_update (env : ServerEnv) (user : User)
    (f : Contribution → Contribution) (id : uuid) (db : DB)
    : DB * option string :=
  match request_error env with
  | Some e => (db, Some e)
  | None =>
      (if sql_if (is_admin (claims user)) then update_contributions f id db
       else db, None)
  end.

Record ActionResult := {
  ar_success : bool;
  ar_error : option string
}.

Definition join_issues (issues : list string) : string :=
  match issues with
  | [] => ""
  | i :: rest => fold_left (λ acc m, acc ++ ", " ++ m) rest i
  end.

(** The [catch] block shared by the actions. *)
Definition action_catch (e : thrown) : ActionResult :=
  match e with
  | ZodError issues =>
      {| ar_success := false;
         ar_error := Some ("Invalid data: " ++ join_issues issues) |}
  | Error message => {| ar_success := false; ar_error := Some message |}
  end.

Definition classifyContribution (env : ServerEnv) (contributionId : uuid)
    (data : ClassificationData) (db : DB) : DB * ActionResult :=
  match requireAdmin (getUser env) with
  | Throw e => (db, action_catch e)
  | Return admin =>
      match classificationSchema_parse data with
      | Throw e => (db, action_catch e)
      | Return validated =>
          let '(db', updateError) :=
            from_contributions_update env admin
              (classified_fields admin (new_Date env) validated)
              contributionId db in
          match updateError with
          | Some _ =>
              (db', action_catch (Error "Failed to classify contribution"))
          | None => (db', {| ar_success := true; ar_error := None |})
          end
      end
  end.

(** [rejectContribution]: the sibling action, which goes through the
    procedure. The session of the remote call carries the admin's claims. *)
Definition rejectContribution (env : ServerEnv) (s : Session)
    (contributionId : uuid) (reason : option string) (db : DB)
    : DB * ActionResult :=
  match requireAdmin (getUser env) with
  | Throw e => (db, action_catch e)
  | Return admin =>
      match request_error env with
      | Some _ => (db, action_catch (Error "Failed to reject contribution"))
      | None =>
          let '(db', result) :=
            reject_contribution
              {| jwt := claims admin; now := now s;
                 classification_uuid := classification_uuid s;
                 history_uuid := history_uuid s |}
              (Some contributionId) (Some (u_id admin)) (or_null reason) db in
          if success result then
            (db', {| ar_success := true; ar_error := None |})
          else
            (db', action_catch
                    (Error (match json_get "error" result with
                            | Some (JText m) =>
                                if bool_decide (m = "") then "Rejection failed"
                                else m
                            | _ => "Rejection failed"
                            end)))
      end
  end.

(** ** The offline queue *)

Record Blob := {
  blob_type : string;
  blob_bytes : list Byte.byte
}.

Record Image := {
  blob : Blob;
  name : string
}.

Record LatLng := {
  lat : float;
  lng : float
}.

Record BeachLocation := {
  bl_lat : float;
  bl_lng : float;
  bl_name : string
}.

Record FormData := {
  fd_brand : string;
  fd_plasticType : string;
  fd_beachName : option string;
  fd_notes : option string;
  fd_location : LatLng;
  fd_beachLocation : option BeachLocation
}.

Record Images := {
  productImage : Image;
  backsideImage : option Image;
  recyclingImage : option Image;
  manufacturerImage : option Image
}.

Inductive QueueStatus := pending | uploading | failed | completed.

#[global] Instance QueueStatus_eq_dec : EqDecision QueueStatus.
Proof. solve_decision. Defined.

Record QueuedContribution := {
  q_id : string;
  q_timestamp : Z;
  q_formData : FormData;
  q_images : Images;
  q_status : QueueStatus;
  q_retryCount : Z;
  q_error : option string
}.

(** The object store [contributions] of [PlasticWatchDB]: records under
    their key. The store is created with [keyPath: 'id'], so the key of a
    record is its [id]. *)
Abbreviation ObjectStore := (gmap string QueuedContribution).

Definition keyed_by_id (store : ObjectStore) : Prop :=
  ∀ k q, store !! k = Some q → q_id q = k.

(** The order of the keys of an object store: strings compare unit by
    unit, a proper prefix before the longer string. *)
Definition key_le (a b : string * QueuedContribution) : Prop :=
  String.leb a.1 b.1 = true.

#[global] Instance key_le_dec a b : Decision (key_le a b) :=
  decide (String.leb a.1 b.1 = true).

(** [store.getAll()]: the records in ascending order of their keys. The
    database is taken to open, so the [catch] branch of [getOfflineQueue],
    which answers the empty list, is not entered. *)
Definition getOfflineQueue (store : ObjectStore) : list QueuedContribution :=
  (merge_sort key_le (map_to_list store)).*2.

(** [saveQueueToIndexedDB]: one transaction that clears the store and adds
    each item. [add] refuses a key that is already present; the failed
    request aborts the transaction, which undoes the clear as well. *)
Definition saveQueueToIndexedDB (queue : list QueuedContribution)
    (store : ObjectStore) : ObjectStore :=
  if bool_decide (NoDup (q_id <$> queue))
  then list_to_map ((λ q, (q_id q, q)) <$> queue)
  else store.

(** What [saveToOfflineQueue] draws from the runtime: the two readings of
    [Date.now()] and the digits cut from [Math.random()]. *)
Record Entropy := {
  date_now_id : Z;
  date_now_timestamp : Z;
  random_digits : string
}.

Definition offline_id (e : Entropy) : string :=
  "offline_" ++ pretty (date_now_id e) ++ "_" ++ random_digits e.

Definition new_contribution (e : Entropy) (formData : FormData)
    (images : Images) : QueuedContribution :=
  {| q_id := offline_id e;
     q_timestamp := date_now_timestamp e;
     q_formData := formData;
     q_images := images;
     q_status := pending;
     q_retryCount := 0;
     q_error := None |}.

Definition saveToOfflineQueue (e : Entropy) (formData : FormData)
    (images : Images) (store : ObjectStore) : ObjectStore * string :=
  let contribution := new_contribution e formData images in
  let queue := (getOfflineQueue store ++ [contribution])%list in
  (saveQueueToIndexedDB queue store, q_id contribution).

(** [store.delete(id)]. *)
Definition removeFromQueue (id : string) (store : ObjectStore) : ObjectStore :=
  delete id store.

(** The three assignments of [updateQueueItemStatus] on the found item. An
    empty error text is falsy and leaves the old one. *)
Definition set_item_status (status : QueueStatus) (error : option string)
    (item : QueuedContribution) : QueuedContribution :=
  {| q_id := q_id item;
     q_timestamp := q_timestamp item;
     q_formData := q_formData item;
     q_images := q_images item;
     q_status := status;
     q_retryCount :=
       if bool_decide (status = failed) then (q_retryCount item + 1)%Z
       else q_retryCount item;
     q_error :=
       match error with
       | Some e => if bool_decide (e = "") then q_error item else Some e
       | None => q_error item
       end |}.

(** [queue.find(q => q.id === id)] followed by the in-place assignments: the
    first item with the id is the one that changes. *)
Fixpoint assign_first (id : string) (f : QueuedContribution → QueuedContribution)
    (queue : list QueuedContribution) : option (list QueuedContribution) :=
  match queue with
  | [] => None
  | q :: rest =>
      if bool_decide (q_id q = id) then Some (f q :: rest)
      else (q ::.) <$> assign_first id f rest
  end.

Definition updateQueueItemStatus (id : string) (status : QueueStatus)
    (error : option string) (store : ObjectStore) : ObjectStore :=
  match assign_first id (set_item_status status error) (getOfflineQueue store) with
  | Some queue => saveQueueToIndexedDB queue store
  | None => store
  end.

(** ** The sync manager *)

Record File := {
  file_name : string;
  file_type : string;
  file_bytes : list Byte.byte
}.

(** [new File([blob], name, { type: blob.type })]. *)
Definition getFile (b : Blob) (n : string) : File :=
  {| file_name := n; file_type := blob_type b; file_bytes := blob_bytes b |}.

(** A settled promise; a rejection carries [String(error)]. *)
Inductive settled (A : Type) :=
| Resolved (a : A)
| Rejected (reason : string).
Arguments Resolved {A} a.
Arguments Rejected {A} reason.

#[global] Instance settled_eq_dec {A} `{EqDecision A} : EqDecision (settled A).
Proof. solve_decision. Defined.

(** The row [syncSingleContribution] inserts into the remote table. *)
Record ContributionData := {
  user_id : option string;
  product_image_url : option string;
  backside_image_url : option string;
  recycling_image_url : option string;
  manufacturer_image_url : option string;
  latitude : float;
  longitude : float;
  beach_latitude : option float;
  beach_longitude : option float;
  beach_name : option string;
  brand_suggestion : string;
  plastic_type_suggestion : string;
  rc_notes : option string;
  rc_status : string;
  created_at : Z
}.

(** The remote side during one pass, as seen from the device: what the
    object storage answers to the upload of an item's image (by item and
    position in the upload array), the signed-in user, and the error of the
    insert of an item's row, if any. *)
Record Network := {
  storage_upload : string → nat → File → settled string;
  current_user_id : option string;
  insert_error : string → ContributionData → option string
}.

Record SyncStats := {
  total : nat;
  completed_count : nat;
  failed_count : nat;
  current : option string
}.

(** The device: the module variable [isSyncing], [navigator.onLine], the
    object store, the objects and rows that reached the remote side, and the
    statistics the progress listeners were called with. *)
Record World := {
  isSyncing : bool;
  onLine : bool;
  idb : ObjectStore;
  bucket : list File;
  remote_rows : list ContributionData;
  notified : list SyncStats
}.

Definition with_isSyncing (b : bool) (w : World) : World :=
  {| isSyncing := b; onLine := onLine w; idb := idb w; bucket := bucket w;
     remote_rows := remote_rows w; notified := notified w |}.

Definition with_idb (f : ObjectStore → ObjectStore) (w : World) : World :=
  {| isSyncing := isSyncing w; onLine := onLine w; idb := f (idb w);
     bucket := bucket w; remote_rows := remote_rows w;
     notified := notified w |}.

Definition with_bucket (b : list File) (w : World) : World :=
  {| isSyncing := isSyncing w; onLine := onLine w; idb := idb w; bucket := b;
     remote_rows := remote_rows w; notified := notified w |}.

Definition with_remote_rows (r : list ContributionData) (w : World) : World :=
  {| isSyncing := isSyncing w; onLine := onLine w; idb := idb w;
     bucket := bucket w; remote_rows := r; notified := notified w |}.

(** [notifySyncProgress(stats)]. *)
Definition notifySyncProgress (stats : SyncStats) (w : World) : World :=
  {| isSyncing := isSyncing w; onLine := onLine w; idb := idb w;
     bucket := bucket w; remote_rows := remote_rows w;
     notified := notified w ++ [stats] |}.

(** [x || null] on a number: zero and NaN are falsy. *)
Definition num_or_null (x : option float) : option float :=
  match x with
  | Some v => if (PrimFloat.eqb v 0 || PrimFloat.is_nan v)%bool then None else Some v
  | None => None
  end.

(** The files handed to [uploadFile], in the order of the upload array;
    an absent image contributes [Promise.resolve(null)]. *)
Definition upload_slots (item : QueuedContribution) : list (option File) :=
  let file (i : Image) := getFile (blob i) (name i) in
  [ Some (file (productImage (q_images item)));
    file <$> backsideImage (q_images item);
    file <$> recyclingImage (q_images item);
    file <$> manufacturerImage (q_images item) ].

(** One entry of the upload array: the answer of the storage service. *)
Definition upload_slot (net : Network) (id : string) (i : nat)
    (slot : option File) : settled (option string) :=
  match slot with
  | None => Resolved None
  | Some f =>
      match storage_upload net id i f with
      | Resolved url => Resolved (Some url)
      | Rejected e => Rejected e
      end
  end.

(** The files that did reach the bucket: every upload is started before any
    is awaited, so an accepted one is stored whatever happens to the
    others. *)
Definition stored_files (net : Network) (item_id : string)
    (slots : list (option File)) : list File :=
  omap (λ stored, stored)
    (imap (λ i slot,
        match slot, upload_slot net item_id i slot with
        | Some f, Resolved _ => Some f
        | _, _ => None
        end) slots).

(** [Promise.all]: the array of results, or a rejection. Of several
    rejections the one reported here is the first in array order. *)
Fixpoint promise_all {A} (l : list (settled A)) : settled (list A) :=
  match l with
  | [] => Resolved []
  | Rejected e :: _ => Rejected e
  | Resolved a :: rest =>
      match promise_all rest with
      | Resolved r => Resolved (a :: r)
      | Rejected e => Rejected e
      end
  end.

(** [new Date(t).toISOString()]: a time value more than 8.64e15 ms from the
    epoch gives an invalid date, on which [toISOString] throws. The result
    stands for the instant it spells. *)
Definition toISOString (t : Z) : settled Z :=
  if bool_decide (Z.abs t ≤ 8640000000000000)%Z then Resolved t
  else Rejected "RangeError: Invalid time value".

Definition contributionData (net : Network) (item : QueuedContribution)
    (uploadedImages : list (option string)) : ContributionData :=
  {| user_id := current_user_id net;
     product_image_url := mjoin (uploadedImages !! 0%nat);
     backside_image_url := mjoin (uploadedImages !! 1%nat);
     recycling_image_url := mjoin (uploadedImages !! 2%nat);
     manufacturer_image_url := mjoin (uploadedImages !! 3%nat);
     latitude := lat (fd_location (q_formData item));
     longitude := lng (fd_location (q_formData item));
     beach_latitude :=
       num_or_null (bl_lat <$> fd_beachLocation (q_formData item));
     beach_longitude :=
       num_or_null (bl_lng <$> fd_beachLocation (q_formData item));
     beach_name := or_null (fd_beachName (q_formData item));
     brand_suggestion := fd_brand (q_formData item);
     plastic_type_suggestion := fd_plasticType (q_formData item);
     rc_notes := or_null (fd_notes (q_formData item));
     rc_status := "pending";
     created_at := q_timestamp item |}.

Definition syncSingleContribution (net : Network) (item : QueuedContribution)
    (w : World) : World * settled unit :=
  let w1 := with_idb (updateQueueItemStatus (q_id item) uploading None) w in
  let slots := upload_slots item in
  let w2 := with_bucket (bucket w1 ++ stored_files net (q_id item) slots) w1 in
  match promise_all (imap (upload_slot net (q_id item)) slots) with
  | Rejected e => (w2, Rejected e)
  | Resolved uploadedImages =>
      match toISOString (q_timestamp item) with
      | Rejected e => (w2, Rejected e)
      | Resolved _ =>
          let data := contributionData net item uploadedImages in
          match insert_error net (q_id item) data with
          | Some e => (w2, Rejected e)
          | None =>
              let w3 := with_remote_rows (remote_rows w2 ++ [data]) w2 in
              (with_idb (updateQueueItemStatus (q_id item) completed None) w3,
               Resolved tt)
          end
      end
  end.

(** One turn of the [for] loop of [syncQueue]. *)
Definition sync_item (net : Network) (item : QueuedContribution)
    (st : World * SyncStats) : World * SyncStats :=
  let '(w, stats) := st in
  let stats1 :=
    {| total := total stats; completed_count := completed_count stats;
       failed_count := failed_count stats;
       current :=
         Some (default "Unknown location"
                 (or_null (fd_beachName (q_formData item)))) |} in
  let w1 := notifySyncProgress stats1 w in
  let '(w2, outcome) := syncSingleContribution net item w1 in
  let '(w3, stats2) :=
    match outcome with
    | Resolved _ =>
        (with_idb (removeFromQueue (q_id item)) w2,
         {| total := total stats1;
            completed_count := S (completed_count stats1);
            failed_count := failed_count stats1; current := current stats1 |})
    | Rejected e =>
        (with_idb (updateQueueItemStatus (q_id item) failed (Some e)) w2,
         {| total := total stats1; completed_count := completed_count stats1;
            failed_count := S (failed_count stats1);
            current := current stats1 |})
    end in
  (notifySyncProgress stats2 w3, stats2).

Definition selected (item : QueuedContribution) : bool :=
  bool_decide (q_status item = pending) || bool_decide (q_status item = failed).

Definition pendingItems (w : World) : list QueuedContribution :=
  filter (λ item, selected item = true) (getOfflineQueue (idb w)).

Definition zero_stats : SyncStats :=
  {| total := 0; completed_count := 0; failed_count := 0; current := None |}.

Definition syncQueue (net : Network) (w : World) : World * SyncStats :=
  if isSyncing w then (w, zero_stats)
  else if negb (onLine w) then (w, zero_stats)
  else
    let w1 := with_isSyncing true w in
    let items := pendingItems w1 in
    let stats :=
      {| total := length items; completed_count := 0; failed_count := 0;
         current := None |} in
    let '(w2, stats') := foldl (λ st item, sync_item net item st) (w1, stats) items in
    (with_isSyncing false w2, stats').

(** ** The device over time *)

(** What reaches the queue and the sync manager: a call of [syncQueue]
    (from [handleOnline], [initAutoSync] or [manualSync]) against the
    network of that moment, a submission saved to the queue, and a change of
    connectivity. *)
Inductive Event :=
| SyncPass (net : Network)
| Save (e : Entropy) (formData : FormData) (images : Images)
| Connectivity (online : bool).

Definition handle (w : World) (ev : Event) : World :=
  match ev with
  | SyncPass net => fst (syncQueue net w)
  | Save e formData images =>
      with_idb (λ store, fst (saveToOfflineQueue e formData images store)) w
  | Connectivity online =>
      {| isSyncing := isSyncing w; onLine := online; idb := idb w;
         bucket := bucket w; remote_rows := remote_rows w;
         notified := notified w |}
  end.

Definition run (events : list Event) (w : World) : World :=
  foldl handle w events.

(** ** The first helpers of the row-level policies (rls_helper_functions) *)

(** [COALESCE(v, d)]. *)
Definition coalesce {A} (v : option A) (d : A) : A := default d v.

(** [is_admin()] as first created: the comparison on the user-editable
    claim, with NULL turned into false. *)
Definition is_admin_legacy (t : Jwt) : bool :=
  coalesce (sql_eq (user_metadata_role t) "admin") false.

Definition current_user_role (t : Jwt) : text :=
  coalesce (user_metadata_role t) "user".

(** ** The policies on [contributions] (contributions_rls_policies) *)

Definition sql_and (a b : sql_bool) : sql_bool :=
  match a, b with
  | Some false, _ | _, Some false => Some false
  | Some true, Some true => Some true
  | _, _ => None
  end.

(** The caller of a statement: [auth.uid()] and [auth.jwt()]. *)
Record Caller := {
  auth_uid : option uuid;
  auth_jwt : Jwt
}.

(** [auth.uid() = user_id]. *)
Definition is_owner (caller : Caller) (user_id : option uuid) : sql_bool :=
  match auth_uid caller, user_id with
  | Some a, Some b => Some (bool_decide (a = b))
  | _, _ => None
  end.

Definition users_view_own_contributions (caller : Caller)
    (user_id : option uuid) (status : text) : sql_bool :=
  is_owner caller user_id.

(** The [USING] and the [WITH CHECK] expression of
    [users_update_own_pending] are the same; [users_delete_own_pending] has
    it as [USING]. *)
Definition users_update_own_pending (caller : Caller)
    (user_id : option uuid) (status : text) : sql_bool :=
  sql_and (is_owner caller user_id) (Some (bool_decide (status = "pending"))).

Definition users_delete_own_pending (caller : Caller)
    (user_id : option uuid) (status : text) : sql_bool :=
  sql_and (is_owner caller user_id) (Some (bool_decide (status = "pending"))).

Definition admins_view_all_contributions (caller : Caller)
    (user_id : option uuid) (status : text) : sql_bool :=
  is_admin (auth_jwt caller).

Definition admins_update_contributions (caller : Caller)
    (user_id : option uuid) (status : text) : sql_bool :=
  is_admin (auth_jwt caller).

Definition public_view_classified (caller : Caller)
    (user_id : option uuid) (status : text) : sql_bool :=
  Some (bool_decide (status = "classified")).

(** Permissive policies: a row passes when the expression of one of them is
    true on it. *)
Definition passes (policies : list (Caller → option uuid → text → sql_bool))
    (caller : Caller) (user_id : option uuid) (status : text) : bool :=
  existsb (λ policy, sql_if (policy caller user_id status)) policies.

Definition can_select : Caller → option uuid → text → bool :=
  passes [users_view_own_contributions; admins_view_all_contributions;
          public_view_classified].

(** An update needs the old row to pass a [USING] expression and the new row
    to pass a [WITH CHECK] expression of the update policies. *)
Definition can_update (caller : Caller)
    (user_id : option uuid) (status : text)
    (new_user_id : option uuid) (new_status : text) : bool :=
  passes [users_update_own_pending; admins_update_contributions]
    caller user_id status &&
  passes [users_update_own_pending; admins_update_contributions]
    caller new_user_id new_status.

Definition can_delete : Caller → option uuid → text → bool :=
  passes [users_delete_own_pending].

(** ** The admin helpers of the server (lib/auth/admin.ts) *)

(** [getAdminUser]: the user when there is one and it is an admin, [null]
    otherwise. The [error] of the reply is not looked at. *)
Definition getAdminUser (r : AuthResponse) : option User :=
  match data_user r with
  | Some user => if isAdmin (Some user) then Some user else None
  | None => None
  end.

(** ** [getContributionForReview] *)

(** [.single()]: the row when exactly one came back, an error otherwise. *)
Definition single {A} (rows : list A) : option A :=
  match rows with
  | [row] => Some row
  | _ => None
  end.

Record ReviewFetch := {
  rf_success : bool;
  rf_data : option Contribution;
  rf_error : option string
}.

(** [user_id] is the column of that name, which the row record does not
    carry; the select sees the rows the select policies let the caller
    see. The [catch] block is the one of the sibling actions without the
    schema case; [requireAdmin] throws an [Error] only. *)
Definition getContributionForReview (env : ServerEnv)
    (user_id : Contribution → option uuid) (contributionId : uuid) (db : DB)
    : ReviewFetch :=
  match requireAdmin (getUser env) with
  | Throw e =>
      {| rf_success := false; rf_data := None;
         rf_error := ar_error (action_catch e) |}
  | Return admin =>
      let caller := {| auth_uid := Some (u_id admin); auth_jwt := claims admin |} in
      let rows :=
        filter (λ c, has_id contributionId c = true ∧
                     can_select caller (user_id c) (c_status c) = true)
          (contributions db) in
      match request_error env, single rows with
      | None, Some data =>
          {| rf_success := true; rf_data := Some data; rf_error := None |}
      | _, _ =>
          {| rf_success := false; rf_data := None;
             rf_error := Some "Contribution not found" |}
      end
  end.

(** ** Queue statistics (offline-queue.ts) *)

Record QueueStats := {
  qs_total : nat;
  qs_pending : nat;
  qs_uploading : nat;
  qs_failed : nat;
  qs_completed : nat;
  qs_oldestTimestamp : option Z
}.

(** [Math.min(...xs)] on a non-empty array of integers. *)
Definition Math_min (x : Z) (xs : list Z) : Z := foldl Z.min x xs.

Definition count_status (status : QueueStatus) (queue : list QueuedContribution)
    : nat :=
  length (filter (λ q, q_status q = status) queue).

Definition getQueueStats (store : ObjectStore) : QueueStats :=
  let queue := getOfflineQueue store in
  {| qs_total := length queue;
     qs_pending := count_status pending queue;
     qs_uploading := count_status uploading queue;
     qs_failed := count_status failed queue;
     qs_completed := count_status completed queue;
     qs_oldestTimestamp :=
       match q_timestamp <$> queue with
       | [] => None
       | t :: ts => Some (Math_min t ts)
       end |}.

(** ** Progress listeners (sync-manager.ts) *)

(** A callback, known by its identity: [!==] compares references. *)
Definition Callback := nat.

(** [onSyncProgress(callback)]: the list with the callback pushed, and the
    function it hands back, which filters the callback out of the list it
    finds when called. *)
Definition onSyncProgress (callback : Callback) (syncListeners : list Callback)
    : list Callback * (list Callback → list Callback) :=
  ((syncListeners ++ [callback])%list,
   λ listeners, filter (λ cb, cb ≠ callback) listeners).

(** [syncListeners.forEach(listener => listener(stats))]: the calls made,
    in order. *)
Definition notify_listeners (stats : SyncStats) (syncListeners : list Callback)
    : list (Callback * SyncStats) :=
  (λ listener, (listener, stats)) <$> syncListeners.

(** ** The extension of a stored object ([uploadFile], lib/supabase.ts) *)

(** [s.split(c)] for a one-character separator. *)
Fixpoint split_on (c : Ascii.ascii) (s : string) : list string :=
  match s with
  | EmptyString => [EmptyString]
  | String a rest =>
      if bool_decide (a = c) then EmptyString :: split_on c rest
      else match split_on c rest with
           | x :: xs => String a x :: xs
           | [] => [String a EmptyString]
           end
  end.

(** [array.pop()] read as a string in a template: the last element, or
    [undefined]. *)
Definition pop (l : list string) : string := List.last l "undefined".

(** The extension [uploadFile] gives the stored object: the part of the
    name after its last dot, else the second part of the MIME type, else
    [jpg]. *)
Definition fileExt (file : File) : string :=
  if bool_decide (file_name file = "") then
    if bool_decide (file_type file = "") then "jpg"
    else default "undefined" (split_on "/"%char (file_type file) !! 1%nat)
  else pop (split_on "."%char (file_name file)).

(** * Vocabulary of the properties *)

Open Scope nat_scope.
Open Scope list_scope.

(** ** Predicates *)

Definition unique_contribution (db : DB) : Prop :=
  NoDup (cl_contribution_id <$> classifications db).

(** The classification rows of one contribution. *)
Definition rows_for (id : uuid) (db : DB) : list Classification :=
  filter (λ r, cl_contribution_id r = id) (classifications db).

Definition access_denied : jsonb :=
  [("success", JBool false);
   ("error", JText "Access denied: Admin privileges required")].

(** When [classify_contribution] has nothing to object to. The status of the
    contribution is not among the conditions. *)
Definition classify_admissible (s : Session) (a : ClassifyArgs) (db : DB) : Prop :=
  is_admin (jwt s) = Some true ∧
  (∃ level, p_confidence_level a = Some level ∧ level ∈ confidence_levels) ∧
  is_Some (p_brand a) ∧
  is_Some (p_manufacturer a) ∧
  (∃ admin, p_admin_id a = Some admin ∧ admin ∈ auth_users db) ∧
  (∀ b, p_beach_id a = Some b → b ∈ beaches db) ∧
  (∀ c, p_company_id a = Some c → c ∈ companies db) ∧
  (classification_uuid s ∉ cl_id <$> classifications db) ∧
  (history_uuid s ∉ rh_id <$> review_history db).

(** When [reject_contribution] has nothing to object to: among the
    conditions is that [contributions] still has the columns its update
    names. *)
Definition reject_admissible (s : Session) (p_admin_id : option uuid) (db : DB)
    : Prop :=
  is_admin (jwt s) = Some true ∧
  (∃ admin, p_admin_id = Some admin ∧ admin ∈ auth_users db) ∧
  (history_uuid s ∉ rh_id <$> review_history db) ∧
  layout db = as_created.

(** Whether the uploads, the building of the row and the insert of an item
    go through: how [syncSingleContribution] settles. *)
Definition sync_outcome (net : Network) (item : QueuedContribution)
    : settled unit :=
  match promise_all (imap (upload_slot net (q_id item)) (upload_slots item)) with
  | Rejected e => Rejected e
  | Resolved uploadedImages =>
      match toISOString (q_timestamp item) with
      | Rejected e => Rejected e
      | Resolved _ =>
          match insert_error net (q_id item)
                  (contributionData net item uploadedImages) with
          | Some e => Rejected e
          | None => Resolved tt
          end
      end
  end.

(** The record of an item that went from [uploading] to [failed]. *)
Definition mark_failed (e : string) (q : QueuedContribution) : QueuedContribution :=
  set_item_status failed (Some e) (set_item_status uploading None q).

(** What one turn does to the object store. *)
Definition store_after (net : Network) (item : QueuedContribution)
    (store : ObjectStore) : ObjectStore :=
  match sync_outcome net item with
  | Resolved _ => delete (q_id item) store
  | Rejected e => alter (mark_failed e) (q_id item) store
  end.

(** The turns of the loop over [items], from the state [st]. *)
Definition turns (net : Network) (items : list QueuedContribution)
    (st : World * SyncStats) : World * SyncStats :=
  foldl (λ st item, sync_item net item st) st items.

(** The uploads and the insert of an item go through. *)
Definition resolved (net : Network) (item : QueuedContribution) : Prop :=
  sync_outcome net item = Resolved tt.

#[global] Instance resolved_dec net item : Decision (resolved net item) :=
  decide (sync_outcome net item = Resolved tt).

(** ** Concrete inputs *)

Definition pending_contribution : Contribution :=
  {| c_id := "c-1"; c_status := "pending";
     c_notes := Some "washed ashore after the storm";
     c_classified_by := None; c_classified_at := None;
     c_brand := None; c_manufacturer := None; c_product_type := None;
     c_plastic_type := None; c_recyclability_indicator := None;
     c_beach_name := Some "North Beach"; c_reviewer_feedback := None |}.

Definition small_db : DB :=
  {| contributions := [pending_contribution]; classifications := [];
     review_history := []; auth_users := ["admin-1"]; beaches := [];
     companies := []; layout := as_created |}.

Definition an_admin : User :=
  {| u_id := "admin-1"; u_app_metadata_role := None;
     u_user_metadata_role := Some "admin" |}.

Definition admin_session : Session :=
  {| jwt := claims an_admin; now := 1700000000%Z;
     classification_uuid := "cl-1"; history_uuid := "rh-1" |}.

Definition visitor_session : Session :=
  {| jwt := {| app_metadata_role := None; user_metadata_role := Some "user" |};
     now := 1700000000%Z; classification_uuid := "cl-1";
     history_uuid := "rh-1" |}.

(** A session whose token carries no role claim at all. *)
Definition anonymous_session : Session :=
  {| jwt := {| app_metadata_role := None; user_metadata_role := None |};
     now := 1700000000%Z; classification_uuid := "cl-1";
     history_uuid := "rh-1" |}.

Definition classify_args (level : option text) : ClassifyArgs :=
  {| p_contribution_id := Some "c-1"; p_admin_id := Some "admin-1";
     p_brand := Some "Acme"; p_manufacturer := Some "Acme Corp";
     p_plastic_type := Some "PET"; p_admin_notes := None;
     p_confidence_level := level; p_product_type := Some "pet_bottle";
     p_beach_id := None; p_company_id := None;
     p_beach_latitude := None; p_beach_longitude := None |}.

Definition review_env : ServerEnv :=
  {| getUser := {| data_user := Some an_admin; error := None |};
     new_Date := 1700000000%Z; request_error := None |}.

Definition review_form : ClassificationData :=
  {| brand := "Acme"; manufacturer := "Acme Corp"; productType := "pet_bottle";
     plasticType := Some "PET"; recyclabilityIndicator := Some "high";
     beachName := None; notes := None; reviewerFeedback := None |}.

Definition a_photo (n : string) : Image :=
  {| blob := {| blob_type := "image/jpeg"; blob_bytes := [Byte.xff; Byte.xd8; Byte.xff] |};
     name := n |}.

Definition a_form (beach : string) : FormData :=
  {| fd_brand := "Acme"; fd_plasticType := "PET";
     fd_beachName := Some beach; fd_notes := None;
     fd_location := {| lat := 43.25%float; lng := 5.5%float |};
     fd_beachLocation := None |}.

Definition four_images : Images :=
  {| productImage := a_photo "front.jpg";
     backsideImage := Some (a_photo "back.jpg");
     recyclingImage := Some (a_photo "symbol.jpg");
     manufacturerImage := Some (a_photo "maker.jpg") |}.

Definition queued (id : string) (status : QueueStatus) (retries : Z)
    : QueuedContribution :=
  {| q_id := id; q_timestamp := 1700000000%Z; q_formData := a_form id;
     q_images := four_images; q_status := status; q_retryCount := retries;
     q_error := None |}.

(** Three items wait; a fourth was left in [uploading] by an earlier pass. *)
Definition a_store : ObjectStore :=
  <["offline_1_a" := queued "offline_1_a" pending 0]>
  (<["offline_2_b" := queued "offline_2_b" failed 1]>
  (<["offline_3_c" := queued "offline_3_c" pending 0]>
  (<["offline_4_d" := queued "offline_4_d" uploading 0]> ∅))).

Definition a_device (syncing online : bool) : World :=
  {| isSyncing := syncing; onLine := online; idb := a_store; bucket := [];
     remote_rows := []; notified := [] |}.

(** The storage refuses the product image of the second item; everything
    else goes through. *)
Definition second_upload_fails : Network :=
  {| storage_upload := λ id i f,
       if bool_decide (id = "offline_2_b") && bool_decide (i = 0)
       then Rejected "StorageApiError: Payload too large"
       else Resolved ("https://cdn.example/images/" +:+ file_name f);
     current_user_id := Some "user-7";
     insert_error := λ _ _, None |}.

Definition an_entropy : Entropy :=
  {| date_now_id := 1700000123%Z; date_now_timestamp := 1700000124%Z;
     random_digits := "k3j9x0q2p" |}.

(** ** Further vocabulary *)

(** The row [classify_contribution] proposes to the upsert. *)
Definition proposed_row (s : Session) (a : ClassifyArgs) (id : uuid)
    (brand manufacturer : text) (admin : uuid) : Classification :=
  {| cl_id := classification_uuid s;
     cl_contribution_id := id;
     cl_brand := brand;
     cl_manufacturer := manufacturer;
     cl_plastic_type := p_plastic_type a;
     cl_classified_by := admin;
     cl_classified_at := now s;
     cl_admin_notes := p_admin_notes a;
     cl_confidence_level := p_confidence_level a;
     cl_created_at := now s;
     cl_updated_at := now s;
     cl_beach_id := p_beach_id a;
     cl_company_id := p_company_id a;
     cl_product_type := p_product_type a;
     cl_beach_latitude := p_beach_latitude a;
     cl_beach_longitude := p_beach_longitude a |}.

(** The session [s] with the token of an admin in place of its own. *)
Definition as_admin (s : Session) : Session :=
  {| jwt := {| app_metadata_role := Some "admin"; user_metadata_role := None |};
     now := now s; classification_uuid := classification_uuid s;
     history_uuid := history_uuid s |}.

(** What a progress report shows when [n] of the selected [items] have had
    their turn and [item] is the one in hand: the number selected, how many
    of the [n] went through and how many failed, and the beach name of
    [item], or the words the loop puts in its place. *)
Definition progress (net : Network) (items : list QueuedContribution)
    (n : nat) (item : QueuedContribution) : SyncStats :=
  {| total := length items;
     completed_count := length (filter (resolved net) (take n items));
     failed_count := length (filter (λ i, ¬ resolved net i) (take n items));
     current :=
       Some (match fd_beachName (q_formData item) with
             | Some beach =>
                 if bool_decide (beach = "") then "Unknown location"
                 else beach
             | None => "Unknown location"
             end) |}.

(** What [classificationSchema] accepts. *)
Definition valid_form (d : ClassificationData) : Prop :=
  brand d ≠ "" ∧ manufacturer d ≠ "" ∧ productType d ≠ "" ∧
  ∀ r, recyclabilityIndicator d = Some r → r ∈ ["high"; "medium"; "low"].

(** ** Further concrete inputs *)

(** A second review, ten minutes after the first. *)
Definition later_session : Session :=
  {| jwt := claims an_admin; now := 1700000600%Z;
     classification_uuid := "cl-2"; history_uuid := "rh-2" |}.

(** A signed-in contributor without the admin role. *)
Definition a_contributor : Caller :=
  {| auth_uid := Some "user-7";
     auth_jwt := {| app_metadata_role := None;
                    user_metadata_role := Some "user" |} |}.

(** The review form with the brand left empty and an indicator outside the
    enum. *)
Definition incomplete_form : ClassificationData :=
  {| brand := ""; manufacturer := "Acme Corp"; productType := "pet_bottle";
     plasticType := Some "PET"; recyclabilityIndicator := Some "urgent";
     beachName := None; notes := None; reviewerFeedback := None |}.

(** Readings of the clock and of the random source that give the id of the
    first queued item again. *)
Definition a_repeated_entropy : Entropy :=
  {| date_now_id := 1%Z; date_now_timestamp := 1700000200%Z;
     random_digits := "a" |}.

(** * Properties *)

(** ** Tactics and facts shared by the engine proofs *)

Ltac unfold_bind := unfold mbind, result_bind, js_bind in *.

Lemma exception_when_others_inv db body db' r :
  exception_when_others db body = (db', r) →
  body = Ok (db', r) ∨
  (db' = db ∧ ∃ e, body = Raise e ∧
     r = [("success", JBool false); ("error", JText e)]).
Proof.
  destruct body as [[d j]|e]; simpl; intros H; simplify_eq.
  - by left.
  - right. eauto.
Qed.

Lemma find_has_id_status id f cs :
  (∀ c, c_id (f c) = c_id c) →
  c_status <$> find (has_id id) ((λ c, if has_id id c then f c else c) <$> cs)
  = (λ c, c_status (f c)) <$> find (has_id id) cs.
Proof.
  intros Hf. induction cs as [|c cs IH]; [done|]. simpl.
  destruct (has_id id c) eqn:E; simpl.
  - unfold has_id in *. rewrite Hf, E. done.
  - rewrite E. done.
Qed.

Lemma filter_key_absent {A} (key : A → uuid) id (l : list A) :
  id ∉ key <$> l → filter (λ r, key r = id) l = [].
Proof.
  induction l as [|x l IH]; [done|]. rewrite fmap_cons, not_elem_of_cons.
  intros [Hne Hl]. rewrite filter_cons_False; [by apply IH|congruence].
Qed.

Lemma filter_key_NoDup {A} (key : A → uuid) id (l : list A) :
  NoDup (key <$> l) → length (filter (λ r, key r = id) l) ≤ 1.
Proof.
  induction l as [|x l IH]; simpl; [lia|].
  rewrite NoDup_cons. intros [Hx Hl].
  rewrite filter_cons. destruct (decide (key x = id)) as [<-|]; [|by apply IH].
  rewrite filter_key_absent by done. simpl. lia.
Qed.

Lemma find_classifies_Some id l old :
  find (classifies id) l = Some old →
  1 ≤ length (filter (λ r, cl_contribution_id r = id) l).
Proof.
  induction l as [|x l IH]; simpl; [done|].
  rewrite filter_cons. unfold classifies at 1.
  case_bool_decide; case_decide; try done; simpl; intros; lia.
Qed.

Lemma find_classifies_None id l :
  find (classifies id) l = None →
  filter (λ r, cl_contribution_id r = id) l = [].
Proof.
  induction l as [|x l IH]; simpl; [done|].
  rewrite filter_cons. unfold classifies at 1.
  case_bool_decide; case_decide; try done.
Qed.

Lemma filter_do_update id g l :
  (∀ r, cl_contribution_id (g r) = cl_contribution_id r) →
  length (filter (λ r, cl_contribution_id r = id)
            ((λ r, if classifies id r then g r else r) <$> l))
  = length (filter (λ r, cl_contribution_id r = id) l).
Proof.
  intros Hg. induction l as [|x l IH]; [done|]. rewrite fmap_cons.
  destruct (classifies id x) eqn:E; unfold classifies in E.
  - apply bool_decide_eq_true in E.
    rewrite !filter_cons_True by (by rewrite ?Hg). simpl. by rewrite IH.
  - apply bool_decide_eq_false in E.
    rewrite !filter_cons_False by done. done.
Qed.

Lemma fmap_do_update id g (l : list Classification) :
  (∀ r, cl_contribution_id (g r) = cl_contribution_id r) →
  cl_contribution_id <$> ((λ r, if classifies id r then g r else r) <$> l)
  = cl_contribution_id <$> l.
Proof.
  intros Hg. rewrite <- list_fmap_compose. apply list_fmap_ext.
  intros i x _. simpl. by destruct (classifies id x); rewrite ?Hg.
Qed.

Ltac invert_steps :=
  unfold_bind; unfold not_null, references, unique_key, raise_if in *;
  repeat (case_match; simplify_eq/=; try done).

Lemma upsert_classification_frame s a id db db2 cid :
  upsert_classification s a id db = Ok (db2, cid) →
  contributions db2 = contributions db ∧
  review_history db2 = review_history db ∧
  auth_users db2 = auth_users db.
Proof. unfold upsert_classification. intros H. invert_steps. Qed.

Lemma upsert_classification_inv s a id db db2 cid :
  upsert_classification s a id db = Ok (db2, cid) →
  ∃ proposed,
    cl_contribution_id proposed = id ∧
    classifications db2 =
      match find (classifies id) (classifications db) with
      | Some _ =>
          (λ r, if classifies id r then do_update s proposed r else r)
            <$> classifications db
      | None => classifications db ++ [proposed]
      end.
Proof.
  unfold upsert_classification. intros H.
  invert_steps; (eexists; split; [|reflexivity]; done).
Qed.

Lemma upsert_classification_rows s a id db db2 cid :
  unique_contribution db →
  upsert_classification s a id db = Ok (db2, cid) →
  length (rows_for id db2) = 1 ∧ unique_contribution db2.
Proof.
  unfold unique_contribution, rows_for.
  intros Hu (proposed & Hid & ->)%upsert_classification_inv.
  destruct (find (classifies id) (classifications db)) as [old|] eqn:Hfind.
  - split.
    + rewrite filter_do_update by done.
      pose proof (filter_key_NoDup cl_contribution_id id _ Hu).
      pose proof (find_classifies_Some _ _ _ Hfind). lia.
    + by rewrite fmap_do_update.
  - pose proof (find_classifies_None _ _ Hfind) as Hnone. split.
    + rewrite filter_app, Hnone. by rewrite filter_cons_True.
    + rewrite fmap_app. apply NoDup_app. split_and!; [done| |apply NoDup_singleton].
      intros x Hx Hin. apply list_elem_of_singleton in Hin. simpl in Hin. subst x.
      apply list_elem_of_fmap in Hx as (r & Hr & Hin).
      apply (filter_nil_not_elem_of _ _ r Hnone); [congruence|done].
Qed.

Lemma insert_review_history_inv s id admin_id action prev new changes reason db db3 :
  insert_review_history s id admin_id action prev new changes reason db = Ok db3 →
  contributions db3 = contributions db ∧
  classifications db3 = classifications db ∧
  ∃ admin, admin_id = Some admin ∧
    review_history db3 = review_history db ++
      [ {| rh_id := history_uuid s; rh_contribution_id := id;
           rh_admin_id := admin; rh_action := action;
           rh_previous_status := Some prev; rh_new_status := Some new;
           rh_changes := changes; rh_reason := reason;
           rh_created_at := now s |} ].
Proof. unfold insert_review_history. intros H. invert_steps. eauto. Qed.

Lemma classify_body_inv s a db db' r :
  classify_body s a db = Ok (db', r) →
  ∃ id v_old db2 cid,
    p_contribution_id a = Some id ∧
    select_status db (Some id) = Some v_old ∧
    sql_if (sql_not (is_admin (jwt s))) = false ∧
    sql_if (sql_not_in (p_confidence_level a) confidence_levels) = false ∧
    upsert_classification s a id
      (update_contributions (set_status "classified") id db) = Ok (db2, cid) ∧
    insert_review_history s id (p_admin_id a) (classify_action v_old) v_old
      "classified" (Some (classify_changes a)) None db2 = Ok db' ∧
    r = [("success", JBool true); ("classification_id", JText cid);
         ("previous_status", JText v_old)].
Proof.
  unfold classify_body. intros H. unfold_bind. unfold raise_if in H.
  destruct (sql_if (sql_not (is_admin (jwt s)))) eqn:Hgate; [done|].
  destruct (sql_if (sql_not_in _ _)) eqn:Hconf; [done|].
  destruct (p_contribution_id a) as [id|] eqn:Hid;
    [|by destruct (select_status db None)].
  destruct (select_status db (Some id)) as [v_old|] eqn:Hsel; [|done].
  destruct (upsert_classification _ _ _ _) as [[db2 cid]|] eqn:Hup; [|done].
  destruct (insert_review_history _ _ _ _ _ _ _ _ _) as [db3|] eqn:Hins; [|done].
  simplify_eq. by exists id, v_old, db2, cid.
Qed.

Lemma reject_body_inv s pc pa reason db db' r :
  reject_body s pc pa reason db = Ok (db', r) →
  ∃ id v_old,
    pc = Some id ∧
    select_status db (Some id) = Some v_old ∧
    sql_if (sql_not (is_admin (jwt s))) = false ∧
    insert_review_history s id pa "rejected" v_old "rejected" None reason
      (delete_classifications id
         (update_contributions (set_rejected s pa reason) id db)) = Ok db' ∧
    r = [("success", JBool true); ("previous_status", JText v_old)].
Proof.
  unfold reject_body. intros H. unfold_bind. unfold raise_if in H.
  destruct (sql_if (sql_not (is_admin (jwt s)))) eqn:Hgate; [done|].
  destruct pc as [id|]; [|by destruct (select_status db None)].
  destruct (select_status db (Some id)) as [v_old|] eqn:Hsel; [|done].
  case_bool_decide; [done|].
  destruct (references _ _ _); [|done].
  destruct (insert_review_history _ _ _ _ _ _ _ _ _) as [db3|] eqn:Hins; [|done].
  simplify_eq. by exists id, v_old.
Qed.

(** The update of [reject_contribution] names columns that the refactored
    table does not have: the body runs to its end on the table as created
    only. *)
Lemma reject_body_layout s pc pa reason db out :
  reject_body s pc pa reason db = Ok out → layout db = as_created.
Proof.
  unfold reject_body. intros H. unfold_bind. unfold raise_if in H.
  destruct (sql_if (sql_not (is_admin (jwt s)))); [done|].
  destruct pc as [id|]; [|by destruct (select_status db None)].
  destruct (select_status db (Some id)); [|done].
  case_bool_decide as Hl; [done|]. by destruct (layout db).
Qed.

(** A procedure reports success exactly when its body ran to the end. *)
Lemma classify_success_body s a db db' r :
  classify_contribution s a db = (db', r) → success r = true →
  classify_body s a db = Ok (db', r).
Proof.
  unfold classify_contribution.
  intros [?|(-> & e & _ & ->)]%exception_when_others_inv; done.
Qed.

Lemma reject_success_body s pc pa reason db db' r :
  reject_contribution s pc pa reason db = (db', r) → success r = true →
  reject_body s pc pa reason db = Ok (db', r).
Proof.
  unfold reject_contribution.
  intros [?|(-> & e & _ & ->)]%exception_when_others_inv; done.
Qed.

Lemma select_status_Some_find db id st :
  select_status db (Some id) = Some st →
  ∃ c, find (has_id id) (contributions db) = Some c ∧ c_status c = st.
Proof.
  unfold select_status. simpl.
  destruct (find _ _) as [c|]; simpl; intros; simplify_eq. eauto.
Qed.

(** What a successful [classify_contribution] leaves behind. *)
Lemma classify_contribution_effect s a db db' r :
  classify_contribution s a db = (db', r) →
  success r = true →
  ∃ id v_old h,
    p_contribution_id a = Some id ∧
    select_status db (Some id) = Some v_old ∧
    select_status db' (Some id) = Some "classified" ∧
    review_history db' = review_history db ++ [h] ∧
    rh_contribution_id h = id ∧
    rh_action h = classify_action v_old ∧
    rh_previous_status h = Some v_old ∧
    rh_new_status h = Some "classified" ∧
    (unique_contribution db →
       length (rows_for id db') = 1 ∧ unique_contribution db').
Proof.
  intros Hcall Hs.
  apply classify_success_body in Hcall; [|done].
  apply classify_body_inv in Hcall
    as (id & v_old & db2 & cid & Hid & Hsel & _ & _ & Hup & Hins & _).
  pose proof (upsert_classification_frame _ _ _ _ _ _ Hup) as (Hc2 & Hh2 & _).
  apply insert_review_history_inv in Hins as (Hc3 & Hcl3 & admin & _ & Hh3).
  eexists id, v_old, _. split_and!; try done.
  1: { apply select_status_Some_find in Hsel as (c & Hc & _).
       unfold select_status. simpl. rewrite Hc3, Hc2. simpl.
       rewrite find_has_id_status by done. by rewrite Hc. }
  1: { rewrite Hh3, Hh2. reflexivity. }
  all: try done.
  intros Hu. apply upsert_classification_rows in Hup as [Hone Hu2]; [|done].
  unfold rows_for, unique_contribution in *. by rewrite Hcl3.
Qed.

Lemma filter_filter_out id (l : list Classification) :
  filter (λ r, cl_contribution_id r = id)
    (filter (λ r, cl_contribution_id r ≠ id) l) = [].
Proof.
  induction l as [|x l IH]; [done|].
  destruct (decide (cl_contribution_id x = id)).
  - by rewrite (filter_cons_False (λ r, cl_contribution_id r ≠ id)) by tauto.
  - rewrite (filter_cons_True (λ r, cl_contribution_id r ≠ id)) by done.
    by rewrite filter_cons_False.
Qed.

(** What a successful [reject_contribution] leaves behind. *)
Lemma reject_contribution_effect s pc pa reason db db' r :
  reject_contribution s pc pa reason db = (db', r) →
  success r = true →
  ∃ id v_old h,
    pc = Some id ∧
    select_status db (Some id) = Some v_old ∧
    select_status db' (Some id) = Some "rejected" ∧
    contributions db' =
      ((λ c, if has_id id c then set_rejected s pa reason c else c)
         <$> contributions db) ∧
    rows_for id db' = [] ∧
    review_history db' = review_history db ++ [h] ∧
    rh_contribution_id h = id ∧
    rh_action h = "rejected" ∧
    rh_reason h = reason ∧
    rh_previous_status h = Some v_old.
Proof.
  intros Hcall Hs.
  apply reject_success_body in Hcall; [|done].
  apply reject_body_inv in Hcall as (id & v_old & -> & Hsel & _ & Hins & _).
  apply insert_review_history_inv in Hins as (Hc3 & Hcl3 & admin & _ & Hh3).
  eexists id, v_old, _. split_and!; try done.
  1: { apply select_status_Some_find in Hsel as (c & Hc & _).
       unfold select_status. simpl. rewrite Hc3. simpl.
       rewrite find_has_id_status by done. by rewrite Hc. }
  unfold rows_for. rewrite Hcl3. simpl. apply filter_filter_out.
Qed.

(** ** Authorization and validation failures *)

(** A caller for whom [is_admin()] is false gets the authorization failure
    from [classify_contribution] and from [reject_contribution], whatever
    the arguments and the database are, and the database that comes back is
    the one that went in. This is the gate as far as it goes: it speaks of
    the callers on whom [is_admin()] is false, not of all who are no
    admin. *)
Lemma non_admin_is_refused s a pc pa reason db :
  is_admin (jwt s) = Some false →
  classify_contribution s a db = (db, access_denied) ∧
  reject_contribution s pc pa reason db = (db, access_denied) ∧
  success access_denied = false.
Proof.
  intros Hadmin.
  unfold classify_contribution, classify_body, reject_contribution, reject_body.
  by rewrite Hadmin.
Qed.

(** C4. A confidence level outside high, medium and low makes
    [classify_contribution] return a failure object and hand back the
    database it was given. *)
Theorem invalid_confidence_level_is_refused s a db level :
  level ∉ confidence_levels →
  p_confidence_level a = Some level →
  ∃ r, classify_contribution s a db = (db, r) ∧
       success r = false ∧
       contributions (fst (classify_contribution s a db)) = contributions db ∧
       classifications (fst (classify_contribution s a db)) = classifications db ∧
       review_history (fst (classify_contribution s a db)) = review_history db.
Proof.
  intros Hout Hlevel.
  assert (sql_if (sql_not_in (p_confidence_level a) confidence_levels) = true)
    as Hconf.
  { rewrite Hlevel. simpl. by rewrite bool_decide_eq_false_2. }
  unfold classify_contribution, classify_body. unfold_bind.
  rewrite Hconf.
  destruct (raise_if (sql_if (sql_not (is_admin (jwt s)))) _); simpl; eauto 10.
Qed.

(** C3. A caller who is no admin is not always refused. The token of
    [anonymous_session] carries no role claim: the first [is_admin()], with
    its [COALESCE], is false on it, the hardened one is NULL, and
    [IF NOT is_admin()] does not fire on NULL. The caller classifies the
    pending contribution, on the table as created and on the refactored
    one, and rejects it, each time with [success: true] and with the rows
    written. *)
Theorem caller_without_role_is_not_refused :
  is_admin_legacy (jwt anonymous_session) = false ∧
  is_admin (jwt anonymous_session) = None ∧
  (∀ db, db = small_db ∨ db = drop_columns small_db →
     let db' :=
       fst (classify_contribution anonymous_session
              (classify_args (Some "high")) db) in
     let r :=
       snd (classify_contribution anonymous_session
              (classify_args (Some "high")) db) in
     success r = true ∧
     select_status db' (Some "c-1") = Some "classified" ∧
     length (rows_for "c-1" db') = 1 ∧
     length (review_history db') = 1) ∧
  (let db' :=
     fst (reject_contribution anonymous_session (Some "c-1") (Some "admin-1")
            (Some "blurry photo") small_db) in
   let r :=
     snd (reject_contribution anonymous_session (Some "c-1") (Some "admin-1")
            (Some "blurry photo") small_db) in
   success r = true ∧
   select_status db' (Some "c-1") = Some "rejected" ∧
   length (review_history db') = 1).
Proof.
  split; [reflexivity|]. split; [reflexivity|]. split.
  - intros db [->| ->]; vm_compute; split_and!; reflexivity.
  - vm_compute. split_and!; reflexivity.
Qed.

(** SQL's third truth value. For a token without a role claim [is_admin()]
    is NULL, not false, and on a NULL level [NOT IN] is NULL as well; an
    [IF] whose condition is NULL does not fire, so neither check raises and
    the procedure goes on to its writes. *)
Example null_passes_both_checks :
  is_admin (jwt anonymous_session) = None ∧
  success (snd (classify_contribution anonymous_session
                  (classify_args (Some "high")) small_db)) = true ∧
  sql_not_in None confidence_levels = None ∧
  success (snd (classify_contribution admin_session (classify_args None)
                  small_db)) = true.
Proof. vm_compute. split_and!; reflexivity. Qed.

(** ** The state machine *)

Lemma classify_accepts s a db id st :
  classify_admissible s a db →
  p_contribution_id a = Some id →
  select_status db (Some id) = Some st →
  success (snd (classify_contribution s a db)) = true.
Proof.
  intros (Hadm & (level & Hlevel & Hin) & [b Hb] & [m Hm] & (adm & Ha & Hau)
          & Hbeach & Hcomp & Hcu & Hhu) Hid Hsel.
  unfold classify_contribution, classify_body. unfold_bind.
  rewrite Hadm, Hlevel, Hid, Hsel. simpl.
  rewrite (bool_decide_eq_true_2 _ Hin). simpl.
  unfold upsert_classification, insert_review_history. unfold_bind.
  rewrite Hb, Hm, Ha. simpl.
  rewrite (bool_decide_eq_true_2 _ Hau). simpl.
  assert (references "classifications_beach_id_fkey" (p_beach_id a) (beaches db)
          = Ok tt) as ->.
  { destruct (p_beach_id a) as [x|]; [|done]. simpl.
    by rewrite bool_decide_eq_true_2 by auto. }
  assert (references "classifications_company_id_fkey" (p_company_id a)
            (companies db) = Ok tt) as ->.
  { destruct (p_company_id a) as [x|]; [|done]. simpl.
    by rewrite bool_decide_eq_true_2 by auto. }
  unfold unique_key.
  destruct (find (classifies id) (classifications db)); simpl.
  - rewrite (bool_decide_eq_true_2 _ Hau). simpl.
    by rewrite (bool_decide_eq_false_2 _ Hhu).
  - rewrite (bool_decide_eq_false_2 _ Hcu). simpl.
    rewrite (bool_decide_eq_true_2 _ Hau). simpl.
    by rewrite (bool_decide_eq_false_2 _ Hhu).
Qed.

Lemma reject_accepts s pa reason db id st :
  reject_admissible s pa db →
  select_status db (Some id) = Some st →
  success (snd (reject_contribution s (Some id) pa reason db)) = true.
Proof.
  intros (Hadm & (adm & -> & Hau) & Hhu & Hlayout) Hsel.
  unfold reject_contribution, reject_body. unfold_bind.
  rewrite Hadm, Hsel, Hlayout. simpl.
  rewrite (bool_decide_eq_true_2 _ Hau). simpl.
  unfold insert_review_history. unfold_bind. simpl.
  rewrite (bool_decide_eq_true_2 _ Hau). simpl.
  unfold unique_key. by rewrite (bool_decide_eq_false_2 _ Hhu).
Qed.

(** On the table as created every status accepts both operations. For a
    contribution in status pending, classified or rejected: a successful
    classify leaves it classified and logs reclassified when it was
    classified before and classified otherwise; a successful reject leaves
    it rejected; and whether either call is accepted does not depend on the
    status. Among the conditions of a reject is the layout of the table. *)
Lemma every_status_accepts_both s a pa reason db id st :
  st ∈ ["pending"; "classified"; "rejected"] →
  p_contribution_id a = Some id →
  select_status db (Some id) = Some st →
  (∀ db' r, classify_contribution s a db = (db', r) → success r = true →
     select_status db' (Some id) = Some "classified" ∧
     ∃ h, review_history db' = review_history db ++ [h] ∧
          rh_action h =
            if bool_decide (st = "classified") then "reclassified"
            else "classified") ∧
  (∀ db' r, reject_contribution s (Some id) pa reason db = (db', r) →
     success r = true →
     select_status db' (Some id) = Some "rejected") ∧
  (classify_admissible s a db →
     success (snd (classify_contribution s a db)) = true) ∧
  (reject_admissible s pa db →
     success (snd (reject_contribution s (Some id) pa reason db)) = true).
Proof.
  intros _ Hid Hsel. split_and!.
  - intros db' r Hcall Hs.
    destruct (classify_contribution_effect _ _ _ _ _ Hcall Hs)
      as (id' & v_old & h & Hid' & Hsel' & Hnew & Hh & _ & Hact & _).
    simplify_eq. split; [done|]. by exists h.
  - intros db' r Hcall Hs.
    destruct (reject_contribution_effect _ _ _ _ _ _ _ Hcall Hs)
      as (id' & v_old & h & Hid' & _ & Hnew & _). by simplify_eq.
  - intros Hadm. by eapply classify_accepts.
  - intros Hadm. by eapply reject_accepts.
Qed.

(** Both procedures leave the layout of [contributions] as it is. *)
Lemma layout_is_kept s a pc pa reason db :
  layout (fst (classify_contribution s a db)) = layout db ∧
  layout (fst (reject_contribution s pc pa reason db)) = layout db.
Proof.
  split.
  - destruct (classify_contribution s a db) as [db' r] eqn:Hcall.
    unfold classify_contribution in Hcall.
    apply exception_when_others_inv in Hcall as [Hbody|[-> _]]; [|done].
    apply classify_body_inv in Hbody
      as (id & v_old & db2 & cid & _ & _ & _ & _ & Hup & Hins & _).
    unfold insert_review_history in Hins.
    unfold upsert_classification in Hup.
    simpl. invert_steps.
  - destruct (reject_contribution s pc pa reason db) as [db' r] eqn:Hcall.
    unfold reject_contribution in Hcall.
    apply exception_when_others_inv in Hcall as [Hbody|[-> _]]; [|done].
    apply reject_body_inv in Hbody as (id & v_old & _ & _ & _ & Hins & _).
    unfold insert_review_history in Hins.
    simpl. invert_steps.
Qed.

(** C5. Not every status accepts both operations: since the refactor no
    status accepts a reject. [reject_contribution] still assigns
    [classified_by] and [classified_at], which step 3 of the refactor
    migration dropped; on the refactored table the update raises, the
    handler answers [success: false] and the database is as it was, for
    every caller, every contribution and every status. A classify is still
    accepted there, and no call brings the dropped columns back: a
    contribution, once classified, stays classified. *)
Theorem no_status_accepts_a_reject_after_the_refactor :
  (∀ s pc pa reason db,
     layout db = refactored →
     fst (reject_contribution s pc pa reason db) = db ∧
     success (snd (reject_contribution s pc pa reason db)) = false) ∧
  (∀ db, layout (drop_columns db) = refactored) ∧
  (∀ s a pc pa reason db,
     layout (fst (classify_contribution s a db)) = layout db ∧
     layout (fst (reject_contribution s pc pa reason db)) = layout db) ∧
  json_get "error"
    (snd (reject_contribution admin_session (Some "c-1") (Some "admin-1")
            (Some "blurry photo") (drop_columns small_db)))
  = Some (JText (undefined_column "classified_by" "contributions")) ∧
  success (snd (classify_contribution admin_session
                  (classify_args (Some "high")) (drop_columns small_db)))
  = true.
Proof.
  split_and!.
  - intros s pc pa reason db Hlayout.
    destruct (reject_contribution s pc pa reason db) as [db' r] eqn:Hcall.
    unfold reject_contribution in Hcall.
    apply exception_when_others_inv in Hcall
      as [Hbody|(-> & e & _ & ->)]; [|done].
    apply reject_body_layout in Hbody. congruence.
  - done.
  - intros. apply layout_is_kept.
  - vm_compute. reflexivity.
  - vm_compute. reflexivity.
Qed.

(** The round trip of the specification: reject, classify, reject. The log
    has three entries, the status is rejected and no classification row is
    left. *)
Example reject_classify_reject :
  let session h :=
    {| jwt := claims an_admin; now := 1700000000%Z;
       classification_uuid := "cl-1"; history_uuid := h |} in
  let db1 :=
    fst (reject_contribution (session "rh-1") (Some "c-1") (Some "admin-1")
           (Some "blurry photo") small_db) in
  let db2 :=
    fst (classify_contribution (session "rh-2") (classify_args (Some "high"))
           db1) in
  let db3 :=
    fst (reject_contribution (session "rh-3") (Some "c-1") (Some "admin-1")
           None db2) in
  rh_action <$> review_history db3 = ["rejected"; "classified"; "rejected"] ∧
  select_status db3 (Some "c-1") = Some "rejected" ∧
  length (rows_for "c-1" db2) = 1 ∧
  rows_for "c-1" db3 = [].
Proof. vm_compute. split_and!; reflexivity. Qed.

(** ** The review action next to the engine *)

(** [rejectContribution] reaches the tables only through
    [reject_contribution]: when it reports success the log has grown by one
    rejected entry and the contribution has no classification row. *)
Lemma rejectContribution_goes_through_engine env s id reason db db' res :
  rejectContribution env s id reason db = (db', res) →
  ar_success res = true →
  rows_for id db' = [] ∧
  ∃ h, review_history db' = review_history db ++ [h] ∧
       rh_action h = "rejected".
Proof.
  unfold rejectContribution.
  destruct (requireAdmin (getUser env)) as [admin|e];
    [|destruct e; intros; simplify_eq/=; done].
  destruct (request_error env); [intros; simplify_eq/=; done|].
  destruct (reject_contribution _ _ _ _ _) as [db1 r] eqn:Hcall.
  destruct (success r) eqn:Hs; [|intros; simplify_eq/=; done].
  intros ? _. simplify_eq.
  destruct (reject_contribution_effect _ _ _ _ _ _ _ Hcall Hs)
    as (id' & v_old & h & ? & _ & _ & _ & Hrows & Hh & _ & Hact & _).
  simplify_eq. eauto.
Qed.

(** C1, at the input where the code departs from it. An admin classifies
    the pending contribution [c-1] through the review action
    [classifyContribution]: the action reports success and the contribution
    is classified, yet no classification row exists for it and the review
    history has not grown. *)
Lemma classifyContribution_bypasses_engine :
  let '(db', res) := classifyContribution review_env "c-1" review_form small_db in
  ar_success res = true ∧
  select_status db' (Some "c-1") = Some "classified" ∧
  length (rows_for "c-1" db') = 0 ∧
  review_history db' = review_history small_db.
Proof. vm_compute. done. Qed.

(** C2, at the input where the code departs from it. An admin rejects the
    pending contribution [c-1] with a reason: the call succeeds, and besides
    [status] the row has a new [classified_by], [classified_at] and
    [notes]. *)
Lemma reject_contribution_stamps_contribution :
  let '(db', r) :=
    reject_contribution admin_session (Some "c-1") (Some "admin-1")
      (Some "blurry photo") small_db in
  success r = true ∧
  contributions db' ≠ [set_status "rejected" pending_contribution] ∧
  contributions db' =
    [ {| c_id := "c-1"; c_status := "rejected";
         c_notes := Some "blurry photo";
         c_classified_by := Some "admin-1";
         c_classified_at := Some 1700000000%Z;
         c_brand := None; c_manufacturer := None; c_product_type := None;
         c_plastic_type := None; c_recyclability_indicator := None;
         c_beach_name := Some "North Beach"; c_reviewer_feedback := None |} ].
Proof. vm_compute. split_and!; done. Qed.

(** ** The object store *)

Implicit Types (store : ObjectStore) (q item : QueuedContribution).
Implicit Types (w : World) (stats : SyncStats).

Lemma keyed_by_id_empty : keyed_by_id ∅.
Proof. intros k q. by rewrite lookup_empty. Qed.

Lemma keyed_by_id_insert store q :
  keyed_by_id store → keyed_by_id (<[q_id q := q]> store).
Proof.
  intros Hk k q'. rewrite lookup_insert. case_decide; [|by apply Hk].
  intros; by simplify_eq.
Qed.

Lemma keyed_by_id_delete store k :
  keyed_by_id store → keyed_by_id (delete k store).
Proof. intros Hk k' q [_ ?]%lookup_delete_Some. by apply Hk. Qed.

Lemma keyed_by_id_alter store f k :
  (∀ q, q_id (f q) = q_id q) →
  keyed_by_id store → keyed_by_id (alter f k store).
Proof.
  intros Hf Hk k' q. rewrite lookup_alter. case_decide; [|by apply Hk].
  subst. destruct (store !! k') as [q0|] eqn:E; simpl; intros; simplify_eq.
  rewrite Hf. by apply Hk.
Qed.

(** The listing holds the entries of the store, each once. *)
Lemma sorted_entries store :
  merge_sort key_le (map_to_list store) ≡ₚ map_to_list store.
Proof. apply merge_sort_Permutation. Qed.

Lemma list_to_map_sorted_entries store :
  list_to_map (merge_sort key_le (map_to_list store)) = store.
Proof.
  rewrite <- (list_to_map_to_list store) at 2.
  apply list_to_map_proper; [|apply sorted_entries].
  rewrite sorted_entries. apply NoDup_fst_map_to_list.
Qed.

Lemma elem_of_getOfflineQueue store q :
  keyed_by_id store →
  q ∈ getOfflineQueue store ↔ store !! q_id q = Some q.
Proof.
  intros Hk. unfold getOfflineQueue. rewrite list_elem_of_fmap. split.
  - intros ([k q'] & -> & Hin). rewrite sorted_entries in Hin.
    apply elem_of_map_to_list in Hin. simpl. by rewrite (Hk _ _ Hin).
  - intros H. exists (q_id q, q). split; [done|].
    rewrite sorted_entries. by apply elem_of_map_to_list.
Qed.

Lemma getOfflineQueue_pairs store :
  keyed_by_id store →
  (λ q, (q_id q, q)) <$> getOfflineQueue store
  = merge_sort key_le (map_to_list store).
Proof.
  intros Hk. unfold getOfflineQueue. rewrite <- list_fmap_compose.
  rewrite <- (list_fmap_id (merge_sort key_le (map_to_list store))) at 2.
  apply list_fmap_ext. intros i [k q] Hi. simpl.
  apply list_elem_of_lookup_2 in Hi. rewrite sorted_entries in Hi.
  apply elem_of_map_to_list in Hi. by rewrite (Hk _ _ Hi).
Qed.

Lemma getOfflineQueue_ids store :
  keyed_by_id store →
  q_id <$> getOfflineQueue store ≡ₚ (map_to_list store).*1.
Proof.
  intros Hk. rewrite <- sorted_entries, <- (getOfflineQueue_pairs store Hk).
  by rewrite <- list_fmap_compose.
Qed.

Lemma getOfflineQueue_NoDup store :
  keyed_by_id store → NoDup (q_id <$> getOfflineQueue store).
Proof.
  intros Hk. rewrite getOfflineQueue_ids by done. apply NoDup_fst_map_to_list.
Qed.

(** The listing is in ascending order of the ids. *)
Lemma getOfflineQueue_ascending store :
  keyed_by_id store →
  Sorted (λ a b, String.leb a b = true) (q_id <$> getOfflineQueue store).
Proof.
  intros Hk.
  replace (q_id <$> getOfflineQueue store)
    with (merge_sort key_le (map_to_list store)).*1
    by (by rewrite <- (getOfflineQueue_pairs store Hk), <- list_fmap_compose).
  assert (Total key_le) as Htotal.
  { intros a b. apply String.leb_total. }
  pose proof (Sorted_merge_sort key_le (map_to_list store)) as Hsorted.
  induction Hsorted as [|[k q] l _ IH Hhd]; [constructor|].
  rewrite !fmap_cons. constructor; [exact IH|].
  destruct Hhd as [|[k' q'] l' Hle]; [constructor|].
  rewrite !fmap_cons. constructor. exact Hle.
Qed.

Lemma elem_of_queue_ids store k :
  keyed_by_id store →
  k ∈ q_id <$> getOfflineQueue store ↔ is_Some (store !! k).
Proof.
  intros Hk. rewrite list_elem_of_fmap. split.
  - intros (q & -> & Hq). apply elem_of_getOfflineQueue in Hq; eauto.
  - intros [q Hq]. exists q. pose proof (Hk _ _ Hq) as <-.
    split; [done|]. by apply elem_of_getOfflineQueue.
Qed.

Lemma assign_first_None id f (queue : list QueuedContribution) :
  (∀ q, q ∈ queue → q_id q ≠ id) → assign_first id f queue = None.
Proof.
  induction queue as [|q queue IH]; [done|]. intros H. simpl.
  rewrite bool_decide_eq_false_2 by (apply H; left).
  rewrite IH; [done|]. intros q' Hq'. apply H. by right.
Qed.

Lemma assign_first_Some id f (queue : list QueuedContribution) :
  NoDup (q_id <$> queue) → id ∈ q_id <$> queue →
  assign_first id f queue
  = Some ((λ q, if bool_decide (q_id q = id) then f q else q) <$> queue).
Proof.
  induction queue as [|q queue IH]; [by intros _ ?%elem_of_nil|].
  rewrite fmap_cons, NoDup_cons. intros [Hq Hnd] Hin. simpl.
  case_bool_decide as E.
  - do 2 f_equal. rewrite <- (list_fmap_id queue) at 1.
    apply list_fmap_ext. intros i q' Hi. simpl.
    rewrite bool_decide_eq_false_2; [done|]. intros <-. apply Hq.
    rewrite E. apply list_elem_of_fmap. exists q'. split; [done|].
    by eapply list_elem_of_lookup_2.
  - apply elem_of_cons in Hin as [?|Hin]; [congruence|].
    by rewrite IH.
Qed.

Lemma list_to_map_alter_key id f (l : list (string * QueuedContribution)) :
  list_to_map
    ((λ kq, (kq.1, if bool_decide (kq.1 = id) then f kq.2 else kq.2)) <$> l)
  = alter f id (list_to_map l : ObjectStore).
Proof.
  induction l as [|[k q] l IH];
    [by rewrite fmap_nil, !list_to_map_nil, alter_empty|].
  rewrite fmap_cons, !list_to_map_cons, IH. simpl.
  case_bool_decide as E.
  - subst. by rewrite alter_insert_eq, insert_alter_eq.
  - by rewrite alter_insert_ne.
Qed.

(** Rewriting the whole queue with one item changed amounts to changing
    that record in place. *)
Lemma updateQueueItemStatus_alter id status error store :
  keyed_by_id store →
  updateQueueItemStatus id status error store
  = alter (set_item_status status error) id store.
Proof.
  intros Hk. unfold updateQueueItemStatus.
  destruct (decide (id ∈ q_id <$> getOfflineQueue store)) as [Hin|Hout].
  - rewrite assign_first_Some by auto using getOfflineQueue_NoDup.
    unfold saveQueueToIndexedDB.
    set (g := λ q, if bool_decide (q_id q = id)
                   then set_item_status status error q else q).
    assert (q_id <$> (g <$> getOfflineQueue store)
            = q_id <$> getOfflineQueue store) as Hids.
    { rewrite <- list_fmap_compose. apply list_fmap_ext. intros i q _.
      unfold g. simpl. by case_bool_decide. }
    rewrite Hids, bool_decide_eq_true_2 by by apply getOfflineQueue_NoDup.
    rewrite <- (list_to_map_sorted_entries store) at 2.
    rewrite <- list_to_map_alter_key. f_equal.
    rewrite <- (getOfflineQueue_pairs store Hk), <- !list_fmap_compose.
    apply list_fmap_ext. intros i q _. unfold g. simpl.
    by case_bool_decide.
  - rewrite assign_first_None.
    + symmetry. apply map_eq. intros k. rewrite lookup_alter.
      case_decide; [|done]. subst k.
      destruct (store !! id) eqn:E; [|done].
      exfalso. apply Hout. apply elem_of_queue_ids; eauto.
    + intros q Hq <-. apply Hout. apply list_elem_of_fmap. eauto.
Qed.

Lemma saveToOfflineQueue_insert e formData images store :
  keyed_by_id store →
  store !! offline_id e = None →
  saveToOfflineQueue e formData images store
  = (<[offline_id e := new_contribution e formData images]> store,
     offline_id e).
Proof.
  intros Hk Hfresh. unfold saveToOfflineQueue, saveQueueToIndexedDB.
  assert (offline_id e ∉ q_id <$> getOfflineQueue store) as Hnotin.
  { rewrite elem_of_queue_ids by done. rewrite Hfresh. by intros [? ?]. }
  rewrite bool_decide_eq_true_2.
  - f_equal. rewrite fmap_app, getOfflineQueue_pairs by done. simpl.
    rewrite list_to_map_snoc, list_to_map_sorted_entries; [done|].
    rewrite <- (getOfflineQueue_pairs store Hk), <- list_fmap_compose.
    exact Hnotin.
  - rewrite fmap_app. apply NoDup_app. split_and!.
    + by apply getOfflineQueue_NoDup.
    + by intros k Hin ->%list_elem_of_singleton.
    + apply NoDup_singleton.
Qed.

(** ** One turn of the sync loop *)

Ltac turn_simpl :=
  cbn [fst snd isSyncing onLine bucket remote_rows idb notified with_idb
       with_bucket with_remote_rows with_isSyncing notifySyncProgress].

Section sync_turn.
Context (net : Network).

Lemma set_item_status_id status error q :
  q_id (set_item_status status error q) = q_id q.
Proof. done. Qed.

Lemma syncSingleContribution_outcome item w :
  snd (syncSingleContribution net item w) = sync_outcome net item.
Proof.
  unfold syncSingleContribution, sync_outcome.
  destruct (promise_all (imap (upload_slot net (q_id item)) (upload_slots item)));
    [|done].
  destruct (toISOString (q_timestamp item)); [|done].
  by destruct (insert_error _ _ _).
Qed.

Lemma stored_files_from_slots id (slots : list (option File)) f :
  f ∈ stored_files net id slots → Some f ∈ slots.
Proof.
  unfold stored_files. intros (o & Ho & ->)%list_elem_of_omap.
  apply elem_of_lookup_imap in Ho as (i & slot & Hf & Hi).
  destruct slot as [f'|]; [|done].
  destruct (upload_slot net id i (Some f')); simplify_eq.
  by eapply list_elem_of_lookup_2.
Qed.

(** The flags, the bucket and the remote table after one turn. *)
Lemma sync_item_remote item w stats :
  let w' := fst (sync_item net item (w, stats)) in
  isSyncing w' = isSyncing w ∧
  onLine w' = onLine w ∧
  ∃ files rows,
    bucket w' = bucket w ++ files ∧
    remote_rows w' = remote_rows w ++ rows ∧
    Forall (λ f, Some f ∈ upload_slots item) files ∧
    Forall (λ r, ∃ urls, r = contributionData net item urls) rows.
Proof.
  pose proof (stored_files_from_slots (q_id item) (upload_slots item)) as Hfiles.
  apply Forall_forall in Hfiles.
  unfold sync_item, syncSingleContribution.
  destruct (promise_all (imap (upload_slot net (q_id item)) (upload_slots item)))
    as [urls|e];
    [destruct (toISOString (q_timestamp item)) as [created|e];
       [destruct (insert_error net (q_id item) _) as [e|]|]|];
    turn_simpl; (split; [done|]); (split; [done|]).
  - exists (stored_files net (q_id item) (upload_slots item)), [].
    by rewrite app_nil_r.
  - exists (stored_files net (q_id item) (upload_slots item)),
      [contributionData net item urls].
    split_and!; try done. apply Forall_singleton. eauto.
  - exists (stored_files net (q_id item) (upload_slots item)), [].
    by rewrite app_nil_r.
  - exists (stored_files net (q_id item) (upload_slots item)), [].
    by rewrite app_nil_r.
Qed.

(** The object store after one turn. *)
Lemma sync_item_idb item w stats :
  keyed_by_id (idb w) →
  idb (fst (sync_item net item (w, stats))) = store_after net item (idb w).
Proof.
  intros Hk. unfold store_after, sync_outcome, sync_item, syncSingleContribution.
  assert (keyed_by_id (alter (set_item_status uploading None) (q_id item) (idb w)))
    as Hk1 by by apply keyed_by_id_alter.
  destruct (promise_all (imap (upload_slot net (q_id item)) (upload_slots item)))
    as [urls|e];
    [destruct (toISOString (q_timestamp item)) as [created|e];
       [destruct (insert_error net (q_id item) _) as [e|]|]|];
    turn_simpl; unfold removeFromQueue;
    rewrite (updateQueueItemStatus_alter _ _ _ (idb w)) by done;
    rewrite updateQueueItemStatus_alter by done.
  - by rewrite alter_alter_eq.
  - by rewrite !delete_alter_eq.
  - by rewrite alter_alter_eq.
  - by rewrite alter_alter_eq.
Qed.

Lemma store_after_keyed item store :
  keyed_by_id store → keyed_by_id (store_after net item store).
Proof.
  intros Hk. unfold store_after. destruct (sync_outcome net item).
  - by apply keyed_by_id_delete.
  - by apply keyed_by_id_alter.
Qed.

Lemma lookup_store_after_ne item store k :
  k ≠ q_id item → store_after net item store !! k = store !! k.
Proof.
  intros Hne. unfold store_after. destruct (sync_outcome net item).
  - by rewrite lookup_delete_ne.
  - by rewrite lookup_alter_ne.
Qed.

Lemma lookup_store_after_eq item store :
  store_after net item store !! q_id item
  = match sync_outcome net item with
    | Resolved _ => None
    | Rejected e => mark_failed e <$> store !! q_id item
    end.
Proof.
  unfold store_after. destruct (sync_outcome net item).
  - by rewrite lookup_delete_eq.
  - by rewrite lookup_alter_eq.
Qed.

(** The counters after one turn. *)
Lemma sync_item_stats item w stats :
  let stats' := snd (sync_item net item (w, stats)) in
  total stats' = total stats ∧
  match sync_outcome net item with
  | Resolved _ =>
      completed_count stats' = S (completed_count stats) ∧
      failed_count stats' = failed_count stats
  | Rejected _ =>
      completed_count stats' = completed_count stats ∧
      failed_count stats' = S (failed_count stats)
  end.
Proof.
  rewrite <- (syncSingleContribution_outcome item
    (notifySyncProgress
       {| total := total stats; completed_count := completed_count stats;
          failed_count := failed_count stats;
          current := Some (default "Unknown location"
                             (or_null (fd_beachName (q_formData item)))) |} w)).
  unfold sync_item.
  destruct (syncSingleContribution _ _ _) as [w2 [[]|e]]; simpl; done.
Qed.
End sync_turn.

(** ** A whole pass *)

Section sync_pass.
Context (net : Network).

Lemma turns_snoc items item st :
  turns net (items ++ [item]) st = sync_item net item (turns net items st).
Proof. unfold turns. by rewrite foldl_snoc. Qed.

(** What holds after any number of turns. *)
Lemma turns_invariant items w stats :
  keyed_by_id (idb w) →
  let w' := fst (turns net items (w, stats)) in
  let stats' := snd (turns net items (w, stats)) in
  keyed_by_id (idb w') ∧
  idb w' = foldl (λ m item, store_after net item m) (idb w) items ∧
  isSyncing w' = isSyncing w ∧
  onLine w' = onLine w ∧
  total stats' = total stats ∧
  completed_count stats'
    = completed_count stats + length (filter (resolved net) items) ∧
  failed_count stats'
    = failed_count stats + length (filter (λ i, ¬ resolved net i) items) ∧
  ∃ files rows,
    bucket w' = bucket w ++ files ∧
    remote_rows w' = remote_rows w ++ rows ∧
    Forall (λ f, ∃ item, item ∈ items ∧ Some f ∈ upload_slots item) files ∧
    Forall (λ r, ∃ item urls,
              item ∈ items ∧ r = contributionData net item urls) rows.
Proof.
  intros Hk. induction items as [|item items IH] using rev_ind.
  { simpl. split_and!; try done; try lia.
    exists [], []. by rewrite !app_nil_r. }
  cbv zeta in *. rewrite turns_snoc.
  destruct (turns net items (w, stats)) as [w1 stats1] eqn:Hturns.
  destruct IH as (Hk1 & Hidb & Hsync & Hon & Htot & Hcomp & Hfail
                  & files & rows & Hb & Hr & Hfiles & Hrows).
  simpl in Hk1, Hidb, Hsync, Hon, Htot, Hcomp, Hfail, Hb, Hr.
  pose proof (sync_item_idb net item w1 stats1 Hk1) as Hidb'.
  pose proof (sync_item_remote net item w1 stats1)
    as (Hsync' & Hon' & files' & rows' & Hb' & Hr' & Hfiles' & Hrows').
  pose proof (sync_item_stats net item w1 stats1) as [Htot' Hcount].
  cbv zeta in *.
  rewrite !filter_app, !length_app, foldl_snoc.
  split_and!.
  - rewrite Hidb'. by apply store_after_keyed.
  - by rewrite Hidb', Hidb.
  - congruence.
  - congruence.
  - congruence.
  - rewrite filter_cons, filter_nil.
    destruct (decide (resolved net item)) as [Hres|Hres]; unfold resolved in Hres.
    + rewrite Hres in Hcount. destruct Hcount as [-> _]. simpl. lia.
    + destruct (sync_outcome net item) as [[]|e]; [done|].
      destruct Hcount as [-> _]. simpl. lia.
  - rewrite filter_cons, filter_nil.
    destruct (decide (¬ resolved net item)) as [Hres|Hres]; unfold resolved in Hres.
    + destruct (sync_outcome net item) as [[]|e]; [done|].
      destruct Hcount as [_ ->]. simpl. lia.
    + destruct (sync_outcome net item) as [[]|e]; [|by exfalso; apply Hres].
      destruct Hcount as [_ ->]. simpl. lia.
  - exists (files ++ files'), (rows ++ rows').
    rewrite Hb', Hr', Hb, Hr, !app_assoc. split_and!; try done.
    + apply Forall_app. split.
      * eapply Forall_impl; [exact Hfiles|].
        intros f (i & Hi & Hf). exists i. by rewrite elem_of_app; auto.
      * eapply Forall_impl; [exact Hfiles'|].
        intros f Hf. exists item. rewrite elem_of_app, list_elem_of_singleton. auto.
    + apply Forall_app. split.
      * eapply Forall_impl; [exact Hrows|].
        intros r (i & urls & Hi & Hf). exists i, urls. by rewrite elem_of_app; auto.
      * eapply Forall_impl; [exact Hrows'|].
        intros r [urls Hf]. exists item, urls.
        rewrite elem_of_app, list_elem_of_singleton. auto.
Qed.

Lemma foldl_store_after_other items store k :
  k ∉ q_id <$> items →
  foldl (λ m item, store_after net item m) store items !! k = store !! k.
Proof.
  revert store. induction items as [|item items IH]; [done|]. intros store.
  rewrite fmap_cons, not_elem_of_cons. intros [Hne Hk]. simpl.
  rewrite IH by done. by apply lookup_store_after_ne.
Qed.

Lemma foldl_store_after_item items store item :
  NoDup (q_id <$> items) → item ∈ items →
  foldl (λ m i, store_after net i m) store items !! q_id item
  = match sync_outcome net item with
    | Resolved _ => None
    | Rejected e => mark_failed e <$> store !! q_id item
    end.
Proof.
  revert store. induction items as [|i items IH]; [by intros ? _ ?%elem_of_nil|].
  intros store. rewrite fmap_cons, NoDup_cons. intros [Hi Hnd] Hin. simpl.
  destruct (decide (q_id i = q_id item)) as [Heq|Hne].
  - assert (i = item) as ->.
    { apply elem_of_cons in Hin as [?|Hin]; [done|]. exfalso. apply Hi.
      rewrite Heq. apply list_elem_of_fmap. eauto. }
    rewrite foldl_store_after_other by done. apply lookup_store_after_eq.
  - apply elem_of_cons in Hin as [?|Hin]; [congruence|].
    rewrite IH by done. by rewrite lookup_store_after_ne.
Qed.

Lemma pendingItems_spec w item :
  keyed_by_id (idb w) →
  item ∈ pendingItems w ↔
  idb w !! q_id item = Some item ∧
  (q_status item = pending ∨ q_status item = failed).
Proof.
  intros Hk. unfold pendingItems. rewrite list_elem_of_filter.
  rewrite elem_of_getOfflineQueue by done. unfold selected.
  rewrite orb_true_iff, !bool_decide_eq_true. tauto.
Qed.

Lemma pendingItems_NoDup w :
  keyed_by_id (idb w) → NoDup (q_id <$> pendingItems w).
Proof.
  intros Hk. unfold pendingItems.
  eapply sublist_NoDup; [by apply getOfflineQueue_NoDup|].
  apply fmap_sublist, sublist_filter.
Qed.

Lemma pendingItems_with_isSyncing b w :
  pendingItems (with_isSyncing b w) = pendingItems w.
Proof. done. Qed.

(** A pass that runs: the world and the report it ends with. *)
Lemma syncQueue_runs w :
  isSyncing w = false → onLine w = true →
  syncQueue net w
  = (with_isSyncing false
       (fst (turns net (pendingItems w)
               (with_isSyncing true w,
                {| total := length (pendingItems w); completed_count := 0;
                   failed_count := 0; current := None |}))),
     snd (turns net (pendingItems w)
            (with_isSyncing true w,
             {| total := length (pendingItems w); completed_count := 0;
                failed_count := 0; current := None |}))).
Proof.
  intros Hs Ho. unfold syncQueue. rewrite Hs, Ho. cbn [negb].
  rewrite pendingItems_with_isSyncing. unfold turns.
  match goal with |- context [foldl ?f ?a ?l] => by destruct (foldl f a l) end.
Qed.
End sync_pass.

(** ** The sync manager: the properties of the specification *)

(** C6. At most one pass at a time. A call of [syncQueue] made while
    [isSyncing] is set, or while the device is offline, returns the zero
    report and the world it found: no upload, no remote insert, the local
    queue as it was. And a pass that has started keeps [isSyncing] set
    through all its turns, so a call made at any point of it is such a
    call. *)
Theorem at_most_one_pass net w net0 w0 stats0 items :
  isSyncing w = true ∨ onLine w = false →
  syncQueue net w
  = (w, {| total := 0; completed_count := 0; failed_count := 0;
           current := None |}) ∧
  let mid := fst (turns net0 items (with_isSyncing true w0, stats0)) in
  syncQueue net mid
  = (mid, {| total := 0; completed_count := 0; failed_count := 0;
             current := None |}).
Proof.
  intros Hguard. split.
  - unfold syncQueue. destruct Hguard as [->| ->]; [done|].
    by destruct (isSyncing w).
  - cbv zeta. unfold syncQueue.
    assert (isSyncing (fst (turns net0 items (with_isSyncing true w0, stats0)))
            = true) as ->; [|done].
    induction items as [|item items IH] using rev_ind; [done|].
    rewrite turns_snoc.
    destruct (turns net0 items (with_isSyncing true w0, stats0)) as [w1 s1].
    by destruct (sync_item_remote net0 item w1 s1) as [-> _].
Qed.


(** C9. [updateQueueItemStatus] with an id that no queued item has is a
    no-op: it returns, and the store is the one it found. *)
Theorem update_of_unknown_id_is_noop id status error store :
  (∀ q, q ∈ getOfflineQueue store → q_id q ≠ id) →
  updateQueueItemStatus id status error store = store.
Proof.
  intros Hnone. unfold updateQueueItemStatus. by rewrite assign_first_None.
Qed.


Lemma saveToOfflineQueue_collision e formData images store :
  keyed_by_id store →
  is_Some (store !! offline_id e) →
  fst (saveToOfflineQueue e formData images store) = store.
Proof.
  intros Hk Htaken. unfold saveToOfflineQueue, saveQueueToIndexedDB. simpl.
  rewrite bool_decide_eq_false_2; [done|].
  rewrite fmap_app. intros Hnd. apply NoDup_app in Hnd as (_ & Hdisj & _).
  apply (Hdisj (offline_id e)).
  - by apply elem_of_queue_ids.
  - simpl. by apply list_elem_of_singleton.
Qed.

(** What any call of [syncQueue] does to the store, the bucket and the
    remote table. *)
Lemma syncQueue_effect net w :
  keyed_by_id (idb w) →
  let w' := fst (syncQueue net w) in
  keyed_by_id (idb w') ∧
  (∀ k, k ∉ q_id <$> pendingItems w → idb w' !! k = idb w !! k) ∧
  ∃ files rows,
    bucket w' = bucket w ++ files ∧
    remote_rows w' = remote_rows w ++ rows ∧
    Forall (λ f, ∃ item, item ∈ pendingItems w ∧ Some f ∈ upload_slots item)
      files ∧
    Forall (λ r, ∃ item urls,
              item ∈ pendingItems w ∧ r = contributionData net item urls) rows.
Proof.
  intros Hk. cbv zeta.
  destruct (isSyncing w) eqn:Hs; [|destruct (onLine w) eqn:Ho].
  - unfold syncQueue. rewrite Hs. simpl. split_and!; try done.
    exists [], []. by rewrite !app_nil_r.
  - rewrite syncQueue_runs by done.
    pose proof (turns_invariant net (pendingItems w) (with_isSyncing true w)
       {| total := length (pendingItems w); completed_count := 0;
          failed_count := 0; current := None |} Hk)
      as (Hk' & Hidb & _ & _ & _ & _ & _ & files & rows & Hb & Hr & Hf & Hrows).
    cbv zeta in *. cbn [fst snd idb bucket remote_rows with_isSyncing] in *.
    split_and!; try done.
    + intros k Hout. rewrite Hidb. by apply foldl_store_after_other.
    + by exists files, rows.
  - unfold syncQueue. rewrite Hs, Ho. simpl. split_and!; try done.
    exists [], []. by rewrite !app_nil_r.
Qed.

Lemma unselected_not_pending w q :
  keyed_by_id (idb w) →
  idb w !! q_id q = Some q →
  q_status q = uploading ∨ q_status q = completed →
  q_id q ∉ q_id <$> pendingItems w.
Proof.
  intros Hk Hq Hst (item & Hid & Hitem)%list_elem_of_fmap.
  apply pendingItems_spec in Hitem as [Hlook Hsel]; [|done].
  rewrite <- Hid, Hq in Hlook. simplify_eq.
  destruct Hst as [E|E], Hsel as [E'|E']; congruence.
Qed.

Lemma handle_keeps_unselected w q ev :
  keyed_by_id (idb w) →
  idb w !! q_id q = Some q →
  q_status q = uploading ∨ q_status q = completed →
  keyed_by_id (idb (handle w ev)) ∧ idb (handle w ev) !! q_id q = Some q.
Proof.
  intros Hk Hq Hst. destruct ev as [net|e formData images|online];
    cbn [handle with_idb idb].
  - destruct (syncQueue_effect net w Hk) as (Hk' & Hother & _).
    split; [done|]. rewrite Hother; [done|]. by apply unselected_not_pending.
  - destruct (idb w !! offline_id e) as [taken|] eqn:Hfresh.
    + rewrite saveToOfflineQueue_collision by eauto. done.
    + rewrite saveToOfflineQueue_insert by done. cbn [fst]. split.
      * apply (keyed_by_id_insert (idb w) (new_contribution e formData images) Hk).
      * rewrite lookup_insert_ne; [done|]. intros Heq. congruence.
  - done.
Qed.

(** C10. A pass attempts only the items that are pending or failed when it
    starts. An item that is uploading or completed at that moment is not
    among them: whatever the network does, the pass leaves its record as it
    is, and every file uploaded and every row inserted comes from an item
    that was pending or failed. So the item stays in the queue unchanged
    through every later pass, with submissions saved and connectivity
    changing in between. *)
Theorem unselected_items_are_left_alone w q :
  keyed_by_id (idb w) →
  idb w !! q_id q = Some q →
  q_status q = uploading ∨ q_status q = completed →
  (q ∉ pendingItems w) ∧
  (∀ net,
     let w' := fst (syncQueue net w) in
     idb w' !! q_id q = Some q ∧
     ∃ files rows,
       bucket w' = bucket w ++ files ∧
       remote_rows w' = remote_rows w ++ rows ∧
       Forall (λ f, ∃ item, item ∈ pendingItems w ∧ Some f ∈ upload_slots item)
         files ∧
       Forall (λ r, ∃ item urls,
                 item ∈ pendingItems w ∧ r = contributionData net item urls)
         rows) ∧
  (∀ events, idb (run events w) !! q_id q = Some q).
Proof.
  intros Hk Hq Hst. split_and!.
  - intros Hin. apply (unselected_not_pending w q Hk Hq Hst).
    apply list_elem_of_fmap. eauto.
  - intros net. cbv zeta.
    destruct (syncQueue_effect net w Hk) as (_ & Hother & Hremote).
    split; [|done]. rewrite Hother; [done|]. by apply unselected_not_pending.
  - intros events. unfold run.
    cut (keyed_by_id (idb (foldl handle w events)) ∧
         idb (foldl handle w events) !! q_id q = Some q); [tauto|].
    induction events as [|ev events IH] using rev_ind; [done|].
    rewrite foldl_snoc. destruct IH as [Hk' Hq'].
    by apply handle_keeps_unselected.
Qed.

(** ** The properties at concrete inputs *)

Lemma non_admin_is_refused_witness :
  is_admin (jwt visitor_session) = Some false ∧
  classify_contribution visitor_session (classify_args (Some "high")) small_db
    = (small_db, access_denied) ∧
  reject_contribution visitor_session (Some "c-1") (Some "admin-1")
    (Some "blurry photo") small_db = (small_db, access_denied) ∧
  success access_denied = false.
Proof.
  split; [reflexivity|].
  apply (non_admin_is_refused visitor_session (classify_args (Some "high"))
           (Some "c-1") (Some "admin-1") (Some "blurry photo") small_db).
  reflexivity.
Defined.

Lemma invalid_confidence_level_is_refused_witness :
  ("urgent" ∉ confidence_levels) ∧
  p_confidence_level (classify_args (Some "urgent")) = Some "urgent" ∧
  ∃ r, classify_contribution admin_session (classify_args (Some "urgent")) small_db
       = (small_db, r) ∧
       success r = false ∧
       contributions
         (fst (classify_contribution admin_session
                 (classify_args (Some "urgent")) small_db))
       = contributions small_db ∧
       classifications
         (fst (classify_contribution admin_session
                 (classify_args (Some "urgent")) small_db))
       = classifications small_db ∧
       review_history
         (fst (classify_contribution admin_session
                 (classify_args (Some "urgent")) small_db))
       = review_history small_db.
Proof.
  assert ("urgent" ∉ confidence_levels) as Hout by compute_done.
  split; [exact Hout|]. split; [reflexivity|].
  apply (invalid_confidence_level_is_refused admin_session
           (classify_args (Some "urgent")) small_db "urgent" Hout).
  reflexivity.
Defined.

Lemma every_status_accepts_both_witness :
  "pending" ∈ ["pending"; "classified"; "rejected"] ∧
  p_contribution_id (classify_args (Some "high")) = Some "c-1" ∧
  select_status small_db (Some "c-1") = Some "pending" ∧
  success (snd (classify_contribution admin_session
                  (classify_args (Some "high")) small_db)) = true ∧
  success (snd (reject_contribution admin_session (Some "c-1")
                  (Some "admin-1") (Some "blurry photo") small_db)) = true.
Proof.
  assert ("pending" ∈ ["pending"; "classified"; "rejected"]) as Hin
    by compute_done.
  split; [exact Hin|]. split; [reflexivity|]. split; [reflexivity|].
  destruct (every_status_accepts_both admin_session (classify_args (Some "high"))
              (Some "admin-1") (Some "blurry photo") small_db "c-1" "pending"
              Hin eq_refl eq_refl) as (_ & _ & Hclassify & Hreject).
  split.
  - apply Hclassify. unfold classify_admissible. split_and!.
    + reflexivity.
    + exists "high". split; [reflexivity|compute_done].
    + by exists "Acme".
    + by exists "Acme Corp".
    + exists "admin-1". split; [reflexivity|compute_done].
    + intros b Hb. discriminate Hb.
    + intros c Hc. discriminate Hc.
    + apply not_elem_of_nil.
    + apply not_elem_of_nil.
  - apply Hreject. unfold reject_admissible. split_and!.
    + reflexivity.
    + exists "admin-1". split; [reflexivity|compute_done].
    + apply not_elem_of_nil.
    + reflexivity.
Defined.

Lemma a_store_keyed : keyed_by_id a_store.
Proof.
  unfold a_store.
  apply (keyed_by_id_insert _ (queued "offline_1_a" pending 0)).
  apply (keyed_by_id_insert _ (queued "offline_2_b" failed 1)).
  apply (keyed_by_id_insert _ (queued "offline_3_c" pending 0)).
  apply (keyed_by_id_insert _ (queued "offline_4_d" uploading 0)).
  apply keyed_by_id_empty.
Defined.

(** The scenario of the specification: of three queued items the second
    fails its image upload. The pass reports 3, 2 and 1, removes the two
    that went through and keeps the failed one with one more retry. *)
Example three_items_second_fails :
  let '(w', stats) := syncQueue second_upload_fails (a_device false true) in
  total stats = 3 ∧ completed_count stats = 2 ∧ failed_count stats = 1 ∧
  idb w' !! "offline_1_a" = None ∧
  idb w' !! "offline_3_c" = None ∧
  (q_retryCount <$> idb w' !! "offline_2_b") = Some 2%Z ∧
  (q_status <$> idb w' !! "offline_2_b") = Some failed ∧
  idb w' !! "offline_4_d" = Some (queued "offline_4_d" uploading 0) ∧
  length (remote_rows w') = 2 ∧
  isSyncing w' = false.
Proof. vm_compute. split_and!; reflexivity. Qed.

(** The store lists its records by id, whatever the order they came in. *)
Example a_store_is_listed_by_id :
  q_id <$> getOfflineQueue a_store
  = ["offline_1_a"; "offline_2_b"; "offline_3_c"; "offline_4_d"] ∧
  q_id <$> pendingItems (a_device false true)
  = ["offline_1_a"; "offline_2_b"; "offline_3_c"].
Proof. vm_compute. split; reflexivity. Qed.

Lemma at_most_one_pass_witness :
  (isSyncing (a_device true true) = true ∨ onLine (a_device true true) = false) ∧
  syncQueue second_upload_fails (a_device true true)
  = (a_device true true,
     {| total := 0; completed_count := 0; failed_count := 0; current := None |}).
Proof.
  split; [by left|].
  apply (at_most_one_pass second_upload_fails (a_device true true)
           second_upload_fails (a_device false true)
           {| total := 0; completed_count := 0; failed_count := 0;
              current := None |} []).
  by left.
Defined.


Lemma fresh_offline_id : a_store !! offline_id an_entropy = None.
Proof. vm_compute. reflexivity. Defined.


Lemma no_such_item :
  ∀ q, q ∈ getOfflineQueue a_store → q_id q ≠ "offline_9_z".
Proof.
  intros q Hq Hid.
  apply (elem_of_getOfflineQueue a_store q a_store_keyed) in Hq.
  rewrite Hid in Hq. vm_compute in Hq. discriminate Hq.
Defined.

Lemma update_of_unknown_id_is_noop_witness :
  (∀ q, q ∈ getOfflineQueue a_store → q_id q ≠ "offline_9_z") ∧
  updateQueueItemStatus "offline_9_z" failed (Some "Error: timeout") a_store
  = a_store.
Proof.
  split; [exact no_such_item|].
  apply (update_of_unknown_id_is_noop "offline_9_z" failed
           (Some "Error: timeout") a_store no_such_item).
Defined.

Lemma unselected_items_are_left_alone_witness :
  keyed_by_id (idb (a_device false true)) ∧
  idb (a_device false true) !! q_id (queued "offline_4_d" uploading 0)
    = Some (queued "offline_4_d" uploading 0) ∧
  (q_status (queued "offline_4_d" uploading 0) = uploading ∨
   q_status (queued "offline_4_d" uploading 0) = completed) ∧
  idb (run [SyncPass second_upload_fails; Connectivity false;
            Save an_entropy (a_form "Calanque") four_images;
            Connectivity true; SyncPass second_upload_fails]
         (a_device false true))
    !! q_id (queued "offline_4_d" uploading 0)
  = Some (queued "offline_4_d" uploading 0).
Proof.
  assert (idb (a_device false true) !! q_id (queued "offline_4_d" uploading 0)
          = Some (queued "offline_4_d" uploading 0)) as Hq
    by (vm_compute; reflexivity).
  split; [exact a_store_keyed|]. split; [exact Hq|]. split; [by left|].
  apply (unselected_items_are_left_alone (a_device false true)
           (queued "offline_4_d" uploading 0) a_store_keyed Hq
           (or_introl eq_refl)).
Defined.

(** * Further properties of the code *)

(** ** The classification engine *)

Lemma classify_failure_inv s a db db' r :
  classify_contribution s a db = (db', r) → success r = false →
  db' = db ∧ ∃ e, classify_body s a db = Raise e.
Proof.
  unfold classify_contribution.
  intros [Hok|(-> & e & He & _)]%exception_when_others_inv Hs; [|eauto].
  apply classify_body_inv in Hok as (? & ? & ? & ? & _ & _ & _ & _ & _ & _ & ->).
  done.
Qed.

Lemma reject_failure_inv s pc pa reason db db' r :
  reject_contribution s pc pa reason db = (db', r) → success r = false →
  db' = db ∧ ∃ e, reject_body s pc pa reason db = Raise e.
Proof.
  unfold reject_contribution.
  intros [Hok|(-> & e & He & _)]%exception_when_others_inv Hs; [|eauto].
  apply reject_body_inv in Hok as (? & ? & _ & _ & _ & _ & ->). done.
Qed.

(** X1. All or nothing. A call of [classify_contribution] or
    [reject_contribution] either reports success or hands back the database
    it was given: a failure at any step, a constraint of the last insert
    included, leaves no write behind. *)
Theorem failed_call_writes_nothing s a pc pa reason db :
  (success (snd (classify_contribution s a db)) = true ∨
   fst (classify_contribution s a db) = db) ∧
  (success (snd (reject_contribution s pc pa reason db)) = true ∨
   fst (reject_contribution s pc pa reason db) = db).
Proof.
  split.
  - destruct (classify_contribution s a db) as [db' r] eqn:Hcall. simpl.
    destruct (success r) eqn:Hs; [by left|right].
    by destruct (classify_failure_inv _ _ _ _ _ Hcall Hs).
  - destruct (reject_contribution s pc pa reason db) as [db' r] eqn:Hcall. simpl.
    destruct (success r) eqn:Hs; [by left|right].
    by destruct (reject_failure_inv _ _ _ _ _ _ _ Hcall Hs).
Qed.

(** X2. The review history only grows, and by one entry per successful call:
    whatever the outcome of a call, the entries that were there are still
    there, unchanged and in order, followed by one new entry when the call
    succeeded and by none when it failed. *)
Theorem review_history_is_append_only s a pc pa reason db :
  (∃ new, review_history (fst (classify_contribution s a db))
          = review_history db ++ new ∧
          length new
          = if success (snd (classify_contribution s a db)) then 1 else 0) ∧
  (∃ new, review_history (fst (reject_contribution s pc pa reason db))
          = review_history db ++ new ∧
          length new
          = if success (snd (reject_contribution s pc pa reason db))
            then 1 else 0).
Proof.
  split.
  - destruct (classify_contribution s a db) as [db' r] eqn:Hcall. simpl.
    destruct (success r) eqn:Hs.
    + destruct (classify_contribution_effect _ _ _ _ _ Hcall Hs)
        as (id & v & h & _ & _ & _ & Hh & _). by exists [h].
    + destruct (classify_failure_inv _ _ _ _ _ Hcall Hs) as [-> _].
      exists []. by rewrite app_nil_r.
  - destruct (reject_contribution s pc pa reason db) as [db' r] eqn:Hcall. simpl.
    destruct (success r) eqn:Hs.
    + destruct (reject_contribution_effect _ _ _ _ _ _ _ Hcall Hs)
        as (id & v & h & _ & _ & _ & _ & _ & Hh & _). by exists [h].
    + destruct (reject_failure_inv _ _ _ _ _ _ _ Hcall Hs) as [-> _].
      exists []. by rewrite app_nil_r.
Qed.

(** X3. A contribution that does not exist. When no row has the given id (or
    the id is NULL), both procedures fail and leave the database as it
    was. *)
Theorem unknown_contribution_is_refused s a pa reason db :
  select_status db (p_contribution_id a) = None →
  (∃ r, classify_contribution s a db = (db, r) ∧ success r = false) ∧
  (∃ r, reject_contribution s (p_contribution_id a) pa reason db = (db, r) ∧
        success r = false).
Proof.
  intros Hnone. split.
  - unfold classify_contribution, classify_body. unfold_bind. rewrite Hnone.
    destruct (raise_if (sql_if (sql_not (is_admin (jwt s)))) _); [|simpl; eauto].
    destruct (raise_if (sql_if (sql_not_in _ _)) _); simpl; eauto.
  - unfold reject_contribution, reject_body. unfold_bind. rewrite Hnone.
    destruct (raise_if (sql_if (sql_not (is_admin (jwt s)))) _); simpl; eauto.
Qed.

Lemma NoDup_fmap_filter {A B} (f : A → B) (P : A → Prop)
    `{∀ x, Decision (P x)} (l : list A) :
  NoDup (f <$> l) → NoDup (f <$> filter P l).
Proof.
  intros Hnd. eapply sublist_NoDup; [exact Hnd|].
  apply fmap_sublist, sublist_filter.
Qed.

(** X4. One classification per contribution, kept. If no two classification
    rows share a contribution before a call, none do after it, whichever of
    the two procedures is called and however the call ends. *)
Theorem unique_contribution_is_kept s a pc pa reason db :
  unique_contribution db →
  unique_contribution (fst (classify_contribution s a db)) ∧
  unique_contribution (fst (reject_contribution s pc pa reason db)).
Proof.
  intros Hu. split.
  - destruct (classify_contribution s a db) as [db' r] eqn:Hcall. simpl.
    destruct (success r) eqn:Hs.
    + destruct (classify_contribution_effect _ _ _ _ _ Hcall Hs)
        as (id & v & h & _ & _ & _ & _ & _ & _ & _ & _ & Hrows).
      by apply Hrows.
    + by destruct (classify_failure_inv _ _ _ _ _ Hcall Hs) as [-> _].
  - destruct (reject_contribution s pc pa reason db) as [db' r] eqn:Hcall. simpl.
    destruct (success r) eqn:Hs.
    + apply reject_success_body in Hcall; [|done].
      apply reject_body_inv in Hcall as (id & v & _ & _ & _ & Hins & _).
      apply insert_review_history_inv in Hins as (_ & Hcl & _).
      unfold unique_contribution in *. rewrite Hcl. simpl.
      by apply NoDup_fmap_filter.
    + by destruct (reject_failure_inv _ _ _ _ _ _ _ Hcall Hs) as [-> _].
Qed.

Lemma insert_review_history_frame s id admin_id action prev new changes reason db db3 :
  insert_review_history s id admin_id action prev new changes reason db = Ok db3 →
  auth_users db3 = auth_users db ∧ beaches db3 = beaches db ∧
  companies db3 = companies db.
Proof. unfold insert_review_history. intros H. invert_steps. Qed.

Lemma filter_other_contributions id f (cs : list Contribution) :
  (∀ c, c_id (f c) = c_id c) →
  filter (λ c, c_id c ≠ id) ((λ c, if has_id id c then f c else c) <$> cs)
  = filter (λ c, c_id c ≠ id) cs.
Proof.
  intros Hf. induction cs as [|c cs IH]; [done|]. rewrite fmap_cons.
  unfold has_id at 1. case_bool_decide as E.
  - rewrite !filter_cons_False by (rewrite ?Hf; tauto). done.
  - rewrite !filter_cons_True by done. by rewrite IH.
Qed.

Lemma filter_other_classifications id g (l : list Classification) :
  (∀ r, cl_contribution_id (g r) = cl_contribution_id r) →
  filter (λ r, cl_contribution_id r ≠ id)
    ((λ r, if classifies id r then g r else r) <$> l)
  = filter (λ r, cl_contribution_id r ≠ id) l.
Proof.
  intros Hg. induction l as [|x l IH]; [done|]. rewrite fmap_cons.
  unfold classifies at 1. case_bool_decide as E.
  - rewrite !filter_cons_False by (rewrite ?Hg; tauto). done.
  - rewrite !filter_cons_True by done. by rewrite IH.
Qed.

Lemma filter_idemp {A} (P : A → Prop) `{∀ x, Decision (P x)} (l : list A) :
  filter P (filter P l) = filter P l.
Proof.
  induction l as [|x l IH]; [done|]. rewrite (filter_cons P x l).
  case_decide; [|done]. by rewrite filter_cons_True, IH.
Qed.

(** X5. A call touches one contribution. The rows of [contributions] with any
    other id, the classification rows of any other contribution, and the
    tables the foreign keys point to are the same after a call of either
    procedure as before, in content and order. *)
Theorem other_contributions_are_untouched s a pa reason db id :
  p_contribution_id a = Some id →
  let after_classify := fst (classify_contribution s a db) in
  let after_reject := fst (reject_contribution s (Some id) pa reason db) in
  filter (λ c, c_id c ≠ id) (contributions after_classify)
    = filter (λ c, c_id c ≠ id) (contributions db) ∧
  filter (λ r, cl_contribution_id r ≠ id) (classifications after_classify)
    = filter (λ r, cl_contribution_id r ≠ id) (classifications db) ∧
  filter (λ c, c_id c ≠ id) (contributions after_reject)
    = filter (λ c, c_id c ≠ id) (contributions db) ∧
  filter (λ r, cl_contribution_id r ≠ id) (classifications after_reject)
    = filter (λ r, cl_contribution_id r ≠ id) (classifications db) ∧
  auth_users after_classify = auth_users db ∧
  auth_users after_reject = auth_users db.
Proof.
  intros Hid. cbv zeta.
  assert (filter (λ c, c_id c ≠ id) (contributions (fst (classify_contribution s a db)))
            = filter (λ c, c_id c ≠ id) (contributions db) ∧
          filter (λ r, cl_contribution_id r ≠ id)
            (classifications (fst (classify_contribution s a db)))
            = filter (λ r, cl_contribution_id r ≠ id) (classifications db) ∧
          auth_users (fst (classify_contribution s a db)) = auth_users db)
    as (Hc1 & Hc2 & Hc3).
  { destruct (classify_contribution s a db) as [db' r] eqn:Hcall. simpl.
    destruct (success r) eqn:Hs;
      [|by destruct (classify_failure_inv _ _ _ _ _ Hcall Hs) as [-> _]].
    apply classify_success_body in Hcall; [|done].
    apply classify_body_inv in Hcall
      as (id' & v & db2 & cid & Hid' & _ & _ & _ & Hup & Hins & _).
    simplify_eq.
    pose proof (upsert_classification_frame _ _ _ _ _ _ Hup) as (Hcon & _ & Hau).
    apply upsert_classification_inv in Hup as (proposed & Hprop & Hcls).
    pose proof (insert_review_history_frame _ _ _ _ _ _ _ _ _ _ Hins)
      as (Hau3 & _).
    apply insert_review_history_inv in Hins as (Hcon3 & Hcls3 & _).
    split_and!.
    - rewrite Hcon3, Hcon. simpl. by apply filter_other_contributions.
    - rewrite Hcls3, Hcls. simpl.
      destruct (find (classifies _) (classifications db)).
      + by apply filter_other_classifications.
      + rewrite filter_app, filter_cons_False, filter_nil, app_nil_r; [done|].
        tauto.
    - by rewrite Hau3, Hau. }
  assert (filter (λ c, c_id c ≠ id)
            (contributions (fst (reject_contribution s (Some id) pa reason db)))
            = filter (λ c, c_id c ≠ id) (contributions db) ∧
          filter (λ r, cl_contribution_id r ≠ id)
            (classifications (fst (reject_contribution s (Some id) pa reason db)))
            = filter (λ r, cl_contribution_id r ≠ id) (classifications db) ∧
          auth_users (fst (reject_contribution s (Some id) pa reason db))
            = auth_users db)
    as (Hr1 & Hr2 & Hr3).
  { destruct (reject_contribution s (Some id) pa reason db) as [db' r] eqn:Hcall.
    simpl.
    destruct (success r) eqn:Hs;
      [|by destruct (reject_failure_inv _ _ _ _ _ _ _ Hcall Hs) as [-> _]].
    apply reject_success_body in Hcall; [|done].
    apply reject_body_inv in Hcall as (id' & v & ? & _ & _ & Hins & _).
    simplify_eq.
    pose proof (insert_review_history_frame _ _ _ _ _ _ _ _ _ _ Hins)
      as (Hau3 & _).
    apply insert_review_history_inv in Hins as (Hcon3 & Hcls3 & _).
    split_and!.
    - rewrite Hcon3. simpl. by apply filter_other_contributions.
    - rewrite Hcls3. simpl. apply filter_idemp.
    - by rewrite Hau3. }
  done.
Qed.

Lemma rows_for_found id (l : list Classification) old :
  NoDup (cl_contribution_id <$> l) →
  find (classifies id) l = Some old →
  filter (λ r, cl_contribution_id r = id) l = [old].
Proof.
  intros Hnd Hfind. induction l as [|x l IH]; [done|]. simpl in Hfind.
  rewrite fmap_cons in Hnd. apply NoDup_cons in Hnd as [Hx Hnd].
  unfold classifies at 1 in Hfind. case_bool_decide as E.
  - simplify_eq. rewrite filter_cons_True by done. f_equal.
    by apply filter_key_absent.
  - rewrite filter_cons_False by done. by apply IH.
Qed.

Lemma rows_for_updated id g (l : list Classification) old :
  (∀ r, cl_contribution_id (g r) = cl_contribution_id r) →
  NoDup (cl_contribution_id <$> l) →
  find (classifies id) l = Some old →
  filter (λ r, cl_contribution_id r = id)
    ((λ r, if classifies id r then g r else r) <$> l) = [g old].
Proof.
  intros Hg Hnd Hfind.
  assert (NoDup (cl_contribution_id <$>
            ((λ r, if classifies id r then g r else r) <$> l))) as Hnd'
    by by rewrite fmap_do_update.
  apply (rows_for_found id _ (g old) Hnd').
  clear Hnd Hnd'. induction l as [|x l IH]; [done|]. simpl in *.
  unfold classifies at 1 in Hfind. unfold classifies at 2.
  case_bool_decide as E.
  - simplify_eq. unfold classifies. by rewrite Hg, bool_decide_eq_true_2.
  - unfold classifies at 1. rewrite bool_decide_eq_false_2 by done. by apply IH.
Qed.

Lemma upsert_classification_full s a id db db2 cid :
  upsert_classification s a id db = Ok (db2, cid) →
  ∃ brand manufacturer admin,
    p_brand a = Some brand ∧
    p_manufacturer a = Some manufacturer ∧
    p_admin_id a = Some admin ∧
    match find (classifies id) (classifications db) with
    | Some old =>
        cid = cl_id old ∧
        classifications db2 =
          (λ r, if classifies id r
                then do_update s (proposed_row s a id brand manufacturer admin) r
                else r) <$> classifications db
    | None =>
        cid = classification_uuid s ∧
        classifications db2 =
          classifications db ++ [proposed_row s a id brand manufacturer admin]
    end.
Proof.
  unfold upsert_classification, not_null. unfold_bind.
  destruct (p_brand a) as [brand|]; [|done].
  destruct (p_manufacturer a) as [manufacturer|]; [|done].
  destruct (p_admin_id a) as [admin|]; [|done].
  destruct (references "classifications_classified_by_fkey" _ _); [|done].
  destruct (references "classifications_beach_id_fkey" _ _); [|done].
  destruct (references "classifications_company_id_fkey" _ _); [|done].
  destruct (find (classifies id) (classifications db)) as [old|].
  - intros ?; simplify_eq. by exists brand, manufacturer, admin.
  - destruct (unique_key _ _ _); [|done].
    intros ?; simplify_eq. by exists brand, manufacturer, admin.
Qed.

(** X6. The row a successful classify leaves. The one classification row of the
    contribution carries the submitted brand, manufacturer, admin and the
    optional fields, is stamped with the time of the call, and its id is the
    one returned as [classification_id]. On a first classification the row
    is new; on a reclassification the row that was there keeps its id and
    its creation time and everything else is overwritten. *)
Theorem classification_row_after_classify s a db db' r id :
  unique_contribution db →
  p_contribution_id a = Some id →
  classify_contribution s a db = (db', r) →
  success r = true →
  ∃ row,
    rows_for id db' = [row] ∧
    p_brand a = Some (cl_brand row) ∧
    p_manufacturer a = Some (cl_manufacturer row) ∧
    p_admin_id a = Some (cl_classified_by row) ∧
    cl_plastic_type row = p_plastic_type a ∧
    cl_confidence_level row = p_confidence_level a ∧
    cl_admin_notes row = p_admin_notes a ∧
    cl_product_type row = p_product_type a ∧
    cl_beach_id row = p_beach_id a ∧
    cl_company_id row = p_company_id a ∧
    cl_beach_latitude row = p_beach_latitude a ∧
    cl_beach_longitude row = p_beach_longitude a ∧
    cl_classified_at row = now s ∧
    cl_updated_at row = now s ∧
    json_get "classification_id" r = Some (JText (cl_id row)) ∧
    match rows_for id db with
    | [] => cl_id row = classification_uuid s ∧ cl_created_at row = now s
    | old :: _ => cl_id row = cl_id old ∧ cl_created_at row = cl_created_at old
    end.
Proof.
  intros Hu Hid Hcall Hs.
  apply classify_success_body in Hcall; [|done].
  apply classify_body_inv in Hcall
    as (id' & v & db2 & cid & Hid' & _ & _ & _ & Hup & Hins & ->).
  simplify_eq.
  apply insert_review_history_inv in Hins as (_ & Hcls3 & _).
  apply upsert_classification_full in Hup
    as (brand & manufacturer & admin & Hb & Hm & Ha & Hcase).
  unfold rows_for, unique_contribution in *. rewrite Hcls3. simpl in Hcase.
  destruct (find (classifies id) (classifications db)) as [old|] eqn:Hfind.
  - destruct Hcase as [-> ->].
    rewrite (rows_for_found _ _ _ Hu Hfind).
    rewrite (rows_for_updated _ _ _ old) by done.
    eexists. split; [reflexivity|]. simpl. by split_and!.
  - destruct Hcase as [-> ->].
    rewrite filter_app, (find_classifies_None _ _ Hfind).
    rewrite filter_cons_True by done. rewrite filter_nil.
    eexists. split; [reflexivity|]. simpl. by split_and!.
Qed.

(** X7. Classify after classify, classify after reject. Of two successful calls
    in a row on one contribution, a classify that follows a classify is
    logged as reclassified with previous status classified, and a classify
    that follows a reject is logged as classified with previous status
    rejected and leaves exactly one classification row. *)
Theorem second_call_is_logged_by_the_first s1 s2 a1 a2 pa reason db id :
  p_contribution_id a1 = Some id →
  p_contribution_id a2 = Some id →
  (∀ db1 r1 db2 r2,
     classify_contribution s1 a1 db = (db1, r1) → success r1 = true →
     classify_contribution s2 a2 db1 = (db2, r2) → success r2 = true →
     ∃ h, last (review_history db2) = Some h ∧
          rh_action h = "reclassified" ∧
          rh_previous_status h = Some "classified") ∧
  (∀ db1 r1 db2 r2,
     reject_contribution s1 (Some id) pa reason db = (db1, r1) →
     success r1 = true →
     classify_contribution s2 a2 db1 = (db2, r2) → success r2 = true →
     length (rows_for id db2) = 1 ∧
     ∃ h, last (review_history db2) = Some h ∧
          rh_action h = "classified" ∧
          rh_previous_status h = Some "rejected").
Proof.
  intros Hid1 Hid2. split.
  - intros db1 r1 db2 r2 Hc1 Hs1 Hc2 Hs2.
    destruct (classify_contribution_effect _ _ _ _ _ Hc1 Hs1)
      as (i1 & v1 & h1 & ? & _ & Hst1 & _).
    destruct (classify_contribution_effect _ _ _ _ _ Hc2 Hs2)
      as (i2 & v2 & h2 & ? & Hv2 & _ & Hh2 & _ & Hact & Hprev & _).
    simplify_eq. exists h2. rewrite Hh2, last_snoc. done.
  - intros db1 r1 db2 r2 Hc1 Hs1 Hc2 Hs2.
    destruct (reject_contribution_effect _ _ _ _ _ _ _ Hc1 Hs1)
      as (i1 & v1 & h1 & ? & _ & Hst1 & _ & Hrows & _).
    apply classify_success_body in Hc2 as Hbody; [|done].
    apply classify_body_inv in Hbody
      as (i2 & v2 & db' & cid & ? & Hv2 & _ & _ & Hup & Hins & _).
    simplify_eq.
    apply insert_review_history_inv in Hins as (_ & Hcls3 & adm & _ & Hh).
    apply upsert_classification_inv in Hup as (proposed & Hprop & Hcls).
    split.
    + unfold rows_for in *. rewrite Hcls3, Hcls. simpl.
      destruct (find (classifies _) (classifications db1)) as [old|] eqn:Hfind.
      * apply find_classifies_Some in Hfind. rewrite Hrows in Hfind.
        simpl in Hfind. lia.
      * rewrite filter_app, Hrows. by rewrite filter_cons_True.
    + eexists. rewrite Hh, last_snoc. split; [done|]. simpl. done.
Qed.

(** ** Access control *)

Lemma is_admin_outcomes_aux t :
  app_metadata_role t = Some "admin" ∨ user_metadata_role t = Some "admin" →
  is_admin t = Some true.
Proof.
  unfold is_admin, sql_eq.
  destruct (app_metadata_role t) as [app|], (user_metadata_role t) as [usr|];
    simpl; repeat case_bool_decide; simpl; intros [?|?]; simplify_eq; done.
Qed.

(** X8. Who [is_admin()] lets through. It is true exactly when one of the two
    role claims is admin, and NULL exactly when the protected claim is not
    admin and the user-editable claim is absent. Every caller the first
    version of the function accepted is still accepted, and that version
    accepted exactly the callers whose [current_user_role()] is admin. *)
Theorem is_admin_outcomes t :
  (is_admin t = Some true ↔
     app_metadata_role t = Some "admin" ∨ user_metadata_role t = Some "admin") ∧
  (is_admin t = None ↔
     app_metadata_role t ≠ Some "admin" ∧ user_metadata_role t = None) ∧
  (is_admin_legacy t = true → is_admin t = Some true) ∧
  (is_admin_legacy t = true ↔ current_user_role t = "admin").
Proof.
  unfold is_admin, is_admin_legacy, current_user_role, coalesce, sql_eq.
  destruct (app_metadata_role t) as [app|], (user_metadata_role t) as [usr|];
    simpl; repeat case_bool_decide; simpl;
    intuition (simplify_eq; try done; try congruence).
Qed.

(** X9. A caller without a role claim is treated as an admin by the engine.
    When [is_admin()] is NULL the admin check of both procedures does not
    fire, and the call does exactly what the same call by an admin does. *)
Theorem caller_without_role_is_treated_as_admin s a pc pa reason db :
  is_admin (jwt s) = None →
  classify_contribution s a db = classify_contribution (as_admin s) a db ∧
  reject_contribution s pc pa reason db
  = reject_contribution (as_admin s) pc pa reason db.
Proof.
  intros Hnull.
  unfold classify_contribution, classify_body, reject_contribution, reject_body.
  rewrite Hnull. done.
Qed.

(** X10. The privileges on [contributions] are nested: a row a caller may delete
    the caller may also update as it is, and a row a caller may update the
    caller may read. *)
Theorem privileges_are_nested caller user_id status new_user_id new_status :
  (can_delete caller user_id status = true →
   can_update caller user_id status user_id status = true) ∧
  (can_update caller user_id status new_user_id new_status = true →
   can_select caller user_id status = true).
Proof.
  unfold can_delete, can_update, can_select, passes. simpl.
  unfold users_delete_own_pending, users_update_own_pending,
    users_view_own_contributions, admins_update_contributions,
    admins_view_all_contributions, public_view_classified.
  destruct (is_owner caller user_id) as [[]|], (is_admin (auth_jwt caller)) as [[]|];
    simpl; repeat case_bool_decide; simpl; split; intros; try done.
Qed.

(** X11. A caller who is not an admin cannot move a contribution out of pending:
    every update the policies allow such a caller is of a pending row the
    caller owns, and the row as updated is still pending and still the
    caller's. *)
Theorem only_admins_change_status caller user_id status new_user_id new_status :
  is_admin (auth_jwt caller) ≠ Some true →
  can_update caller user_id status new_user_id new_status = true →
  status = "pending" ∧ new_status = "pending" ∧
  is_owner caller user_id = Some true ∧
  is_owner caller new_user_id = Some true.
Proof.
  unfold can_update, passes. simpl.
  unfold users_update_own_pending, admins_update_contributions.
  intros Hadmin.
  destruct (is_admin (auth_jwt caller)) as [[]|]; [done| |];
    destruct (is_owner caller user_id) as [[]|],
             (is_owner caller new_user_id) as [[]|];
    simpl; repeat case_bool_decide; simpl; intros; try done.
Qed.

(** X12. Once reviewed, a contribution is closed to its owner. After a
    successful classify or reject the policies allow no caller to delete
    the contribution and no caller but an admin to update it; after a
    successful classify every caller may read it. *)
Theorem reviewed_contribution_is_closed s a pa reason db id caller user_id :
  p_contribution_id a = Some id →
  (∀ db' r st,
     classify_contribution s a db = (db', r) → success r = true →
     select_status db' (Some id) = Some st →
     can_select caller user_id st = true ∧
     can_delete caller user_id st = false ∧
     (is_admin (auth_jwt caller) ≠ Some true →
      ∀ new_user_id new_status,
        can_update caller user_id st new_user_id new_status = false)) ∧
  (∀ db' r st,
     reject_contribution s (Some id) pa reason db = (db', r) →
     success r = true →
     select_status db' (Some id) = Some st →
     can_delete caller user_id st = false ∧
     (is_admin (auth_jwt caller) ≠ Some true →
      ∀ new_user_id new_status,
        can_update caller user_id st new_user_id new_status = false)).
Proof.
  intros Hid.
  assert (∀ st, st ≠ "pending" →
            can_delete caller user_id st = false ∧
            (is_admin (auth_jwt caller) ≠ Some true →
             ∀ new_user_id new_status,
               can_update caller user_id st new_user_id new_status = false))
    as Hclosed.
  { intros st Hst. unfold can_delete, can_update, passes. simpl.
    unfold users_delete_own_pending, users_update_own_pending,
      admins_update_contributions.
    rewrite (bool_decide_eq_false_2 _ Hst). split.
    - by destruct (is_owner caller user_id) as [[]|].
    - intros Hadmin ? ?.
      destruct (is_admin (auth_jwt caller)) as [[]|]; [done| |];
        by destruct (is_owner caller user_id) as [[]|]. }
  split.
  - intros db' r st Hcall Hs Hst.
    destruct (classify_contribution_effect _ _ _ _ _ Hcall Hs)
      as (i & v & h & ? & _ & Hnew & _).
    simplify_eq. split; [|by apply Hclosed].
    unfold can_select, passes. simpl. unfold public_view_classified. simpl.
    by rewrite !orb_true_r.
  - intros db' r st Hcall Hs Hst.
    destruct (reject_contribution_effect _ _ _ _ _ _ _ Hcall Hs)
      as (i & v & h & ? & _ & Hnew & _).
    simplify_eq. by apply Hclosed.
Qed.

(** ** The server actions *)

Lemma requireAdmin_Return r user :
  requireAdmin r = Return user ↔
  error r = None ∧ data_user r = Some user ∧
  u_user_metadata_role user = Some "admin".
Proof.
  unfold requireAdmin, isAdmin.
  destruct (error r), (data_user r) as [u|];
    try (split; [done|by intros (? & ? & ?)]).
  case_bool_decide as Hu; split.
  - intros ?. by simplify_eq.
  - intros (_ & ? & _). by simplify_eq.
  - done.
  - intros (_ & ? & ?). by simplify_eq.
Qed.

Lemma classificationSchema_issues_nil data :
  classificationSchema_issues data = [] ↔ valid_form data.
Proof.
  unfold classificationSchema_issues, valid_form.
  destruct (recyclabilityIndicator data) as [r|];
    repeat case_bool_decide; simpl; split; intros; simplify_eq;
    try done; intuition (simplify_eq; try done; try congruence);
    exfalso; eauto.
Qed.

(** X13. Whoever passes the server's admin check passes the database's. A user
    [requireAdmin] returns has the admin role in the user-editable claim,
    and [is_admin()] is true on the claims of that user; a user whose
    user-editable claim is not admin is refused by the server whatever the
    protected claim says. *)
Theorem server_admin_is_database_admin r user :
  requireAdmin r = Return user →
  is_admin (claims user) = Some true ∧
  is_admin_legacy (claims user) = true ∧
  ∀ other reply,
    u_user_metadata_role other ≠ Some "admin" →
    data_user reply = Some other →
    requireAdmin reply ≠ Return other.
Proof.
  intros (_ & _ & Hrole)%requireAdmin_Return.
  split_and!.
  - apply is_admin_outcomes_aux. by right.
  - unfold is_admin_legacy, claims, coalesce, sql_eq. simpl.
    by rewrite Hrole.
  - intros other reply Hother _ (_ & _ & ?)%requireAdmin_Return. done.
Qed.

(** X14. [getAdminUser] and [requireAdmin] agree except on the error of the auth
    reply: [requireAdmin] returns a user exactly when [getAdminUser] gives
    that user and the reply carries no error, and [getAdminUser] gives a
    user exactly when the reply holds one whose role is admin. *)
Theorem getAdminUser_ignores_the_error r user :
  (requireAdmin r = Return user ↔
   getAdminUser r = Some user ∧ error r = None) ∧
  (getAdminUser r = Some user ↔
   data_user r = Some user ∧ isAdmin (Some user) = true).
Proof.
  rewrite requireAdmin_Return. unfold getAdminUser, isAdmin.
  destruct (data_user r) as [u|]; [|intuition congruence].
  case_bool_decide as Hu.
  - split; split.
    + by intros (? & ? & ?).
    + intros [? ?]. by simplify_eq.
    + intros ?. simplify_eq. by rewrite bool_decide_eq_true.
    + by intros [? _].
  - split; split.
    + intros (? & ? & ?). by simplify_eq.
    + by intros [? ?].
    + done.
    + intros [? ?%bool_decide_eq_true]. by simplify_eq.
Qed.

(** X15. [classifyContribution] writes to nothing but the row it is called for.
    Whatever the caller, the form and the reply of the store, the
    classifications, the review history and every other contribution are as
    before, and when the action reports a failure the whole database is. *)
Theorem classifyContribution_writes_one_row env id data db :
  let db' := fst (classifyContribution env id data db) in
  let res := snd (classifyContribution env id data db) in
  classifications db' = classifications db ∧
  review_history db' = review_history db ∧
  auth_users db' = auth_users db ∧
  filter (λ c, c_id c ≠ id) (contributions db')
  = filter (λ c, c_id c ≠ id) (contributions db) ∧
  (c_id <$> contributions db') = (c_id <$> contributions db) ∧
  (ar_success res = false → db' = db).
Proof.
  unfold classifyContribution, from_contributions_update.
  destruct (requireAdmin (getUser env)) as [admin|]; [|done].
  destruct (classificationSchema_parse data) as [validated|]; [|done].
  destruct (request_error env); [done|].
  destruct (sql_if (is_admin (claims admin))); [|done].
  simpl. split_and!; try done.
  - by apply filter_other_contributions.
  - rewrite <- list_fmap_compose. apply list_fmap_ext.
    intros _ c _. simpl. by destruct (has_id id c).
Qed.

(** X16. When [classifyContribution] succeeds. The action reports success
    exactly when the caller passes [requireAdmin], the form passes the
    schema and the store reports no error; whether a contribution with the
    given id exists plays no part, and when none does the action reports
    success and leaves the database as it was. *)
Theorem classifyContribution_succeeds_iff env id data db :
  let db' := fst (classifyContribution env id data db) in
  let res := snd (classifyContribution env id data db) in
  (ar_success res = true ↔
   (∃ admin, requireAdmin (getUser env) = Return admin) ∧
   valid_form data ∧ request_error env = None) ∧
  (select_status db (Some id) = None → db' = db).
Proof.
  unfold classifyContribution, from_contributions_update,
    classificationSchema_parse.
  pose proof (classificationSchema_issues_nil data) as Hvalid.
  destruct (requireAdmin (getUser env)) as [admin|e].
  2:{ simpl. split; [|done]. destruct e; simpl; split; [done| |done|];
        by intros [[? ?] _]. }
  destruct (classificationSchema_issues data) as [|issue issues].
  2:{ simpl. split; [|done]. split; [done|].
      intros (_ & Hv & _). by apply Hvalid in Hv. }
  destruct (request_error env) as [err|].
  { simpl. split; [|done]. split; [done|]. by intros (_ & _ & ?). }
  simpl. split.
  - split; [|done]. intros _. split_and!; [by eexists| by apply Hvalid | done].
  - intros Hnone. destruct (sql_if (is_admin (claims admin))); [|done].
    unfold update_contributions, with_contributions.
    assert (((λ c, if has_id id c
                   then classified_fields admin (new_Date env) data c else c)
               <$> contributions db) = contributions db) as ->.
    { unfold select_status in Hnone. simpl in Hnone.
      induction (contributions db) as [|c cs IH]; [done|].
      simpl in Hnone. rewrite fmap_cons.
      destruct (has_id id c); [done|]. by rewrite IH. }
    by destruct db.
Qed.

Ltac solve_issue :=
  match goal with
  | |- _ ∈ _ => repeat constructor
  | H : _ ∈ _ |- _ =>
      repeat (apply elem_of_cons in H as [H|H]; try done);
      by apply elem_of_nil in H
  end.

(** X17. What a form that fails the schema gets back. For an admin caller
    the action answers with the messages of the failed checks after the
    words Invalid data, in the order brand, manufacturer, product type,
    indicator, and touches nothing. The message of a required field is among
    them exactly when the field is empty, and the message of the indicator,
    which spells the three options and the value received, exactly when the
    value is none of the three. *)
Theorem invalid_form_is_reported env id data db admin :
  requireAdmin (getUser env) = Return admin →
  ¬ valid_form data →
  classifyContribution env id data db
  = (db, {| ar_success := false;
            ar_error :=
              Some ("Invalid data: " +:+
                    join_issues (classificationSchema_issues data)) |}) ∧
  classificationSchema_issues data ≠ [] ∧
  (brand data = "" ↔ "Brand is required" ∈ classificationSchema_issues data) ∧
  (manufacturer data = "" ↔
     "Manufacturer is required" ∈ classificationSchema_issues data) ∧
  (productType data = "" ↔
     "Product type is required" ∈ classificationSchema_issues data) ∧
  (∀ r, recyclabilityIndicator data = Some r →
     r ∉ ["high"; "medium"; "low"] ↔
     ("Invalid enum value. Expected 'high' | 'medium' | 'low', received '"
        +:+ r +:+ "'") ∈ classificationSchema_issues data).
Proof.
  intros Hadmin Hinvalid.
  assert (classificationSchema_issues data ≠ []) as Hissues.
  { by rewrite classificationSchema_issues_nil. }
  split_and!; [|done|..].
  - unfold classifyContribution, classificationSchema_parse.
    rewrite Hadmin.
    by destruct (classificationSchema_issues data).
  - unfold classificationSchema_issues.
    destruct (recyclabilityIndicator data);
      repeat case_bool_decide; simpl; split; intros; try done;
      solve_issue.
  - unfold classificationSchema_issues.
    destruct (recyclabilityIndicator data);
      repeat case_bool_decide; simpl; split; intros; try done;
      solve_issue.
  - unfold classificationSchema_issues.
    destruct (recyclabilityIndicator data);
      repeat case_bool_decide; simpl; split; intros; try done;
      solve_issue.
  - intros r Hr. unfold classificationSchema_issues. rewrite Hr.
    repeat case_bool_decide; simpl; split; intros; try done;
      solve_issue.
Qed.

(** X18. [rejectContribution] either goes through whole or not at all. On
    success the contribution is rejected, has no classification row and one
    history entry with the reason is added; on failure the database is the
    one the action was given and the result carries a message. *)
Theorem rejectContribution_all_or_nothing env s id reason db :
  let db' := fst (rejectContribution env s id reason db) in
  let res := snd (rejectContribution env s id reason db) in
  (ar_success res = true →
   select_status db' (Some id) = Some "rejected" ∧
   rows_for id db' = [] ∧
   ∃ h, review_history db' = review_history db ++ [h] ∧
        rh_contribution_id h = id ∧
        rh_action h = "rejected" ∧
        rh_reason h = or_null reason ∧
        rh_previous_status h = select_status db (Some id)) ∧
  (ar_success res = false → db' = db ∧ is_Some (ar_error res)).
Proof.
  unfold rejectContribution.
  destruct (requireAdmin (getUser env)) as [admin|e].
  2:{ simpl. split; [by destruct e|]. intros _. split; [done|].
      by destruct e. }
  destruct (request_error env); [by split; [|split]; simpl|].
  destruct (reject_contribution _ _ _ _ db) as [db' r] eqn:Hcall.
  destruct (success r) eqn:Hs; simpl.
  - split; [|done]. intros _.
    destruct (reject_contribution_effect _ _ _ _ _ _ _ Hcall Hs)
      as (i & v & h & ? & Hold & Hnew & _ & Hrows & Hh & ? & ? & ? & ?).
    simplify_eq. split_and!; [done..|].
    exists h. split_and!; try done.
    transitivity (Some v); [done|]. symmetry. exact Hold.
  - split; [done|]. intros _.
    by destruct (reject_failure_inv _ _ _ _ _ _ _ Hcall Hs) as [-> _].
Qed.

(** ** [getContributionForReview] *)

Lemma admin_can_select admin user_id status :
  u_user_metadata_role admin = Some "admin" →
  can_select {| auth_uid := Some (u_id admin); auth_jwt := claims admin |}
    user_id status = true.
Proof.
  intros Hrole. unfold can_select, passes. simpl.
  unfold admins_view_all_contributions. simpl.
  rewrite (is_admin_outcomes_aux (claims admin)) by (by right).
  simpl. by rewrite orb_true_r.
Qed.

(** X19. What an admin gets to review. For a caller who passes [requireAdmin]
    the select policies hide no row, so the fetch succeeds exactly when the
    store reports no error and exactly one contribution has the id; the row
    handed back is that contribution, and a failure carries no row. *)
Theorem review_fetch_finds_the_contribution env user_id id db admin :
  requireAdmin (getUser env) = Return admin →
  let res := getContributionForReview env user_id id db in
  (rf_success res = true ↔
   request_error env = None ∧
   ∃ c, filter (λ c, c_id c = id) (contributions db) = [c]) ∧
  (∀ c, rf_data res = Some c →
        rf_success res = true ∧ c_id c = id ∧ c ∈ contributions db) ∧
  (rf_success res = false →
   rf_data res = None ∧ rf_error res = Some "Contribution not found").
Proof.
  intros Hadmin. unfold getContributionForReview. rewrite Hadmin.
  apply requireAdmin_Return in Hadmin as (_ & _ & Hrole).
  rewrite (list_filter_iff _ (λ c, c_id c = id)).
  2:{ intros c. rewrite (admin_can_select _ _ _ Hrole). unfold has_id.
      rewrite bool_decide_eq_true. tauto. }
  destruct (request_error env) as [err|]; simpl.
  { split_and!; [|done..]. split; [done|]. by intros [? _]. }
  destruct (filter (λ c, c_id c = id) (contributions db))
    as [|c [|c' rest]] eqn:Hrows; simpl.
  - split_and!; [|done..]. split; [done|]. by intros [_ [? ?]].
  - assert (c ∈ filter (λ c, c_id c = id) (contributions db)) as Hc.
    { rewrite Hrows. constructor. }
    apply list_elem_of_filter in Hc as [? ?].
    split_and!; [|by intros ? [= <-]|done]. split; [|done]. intros _.
    split; [done|]. by exists c.
  - split_and!; [|done..]. split; [done|]. by intros [_ [? ?]].
Qed.

(** ** The offline queue *)

Lemma count_status_partition (queue : list QueuedContribution) :
  length queue
  = count_status pending queue + count_status uploading queue
    + count_status failed queue + count_status completed queue.
Proof.
  unfold count_status. induction queue as [|q queue IH]; [done|].
  rewrite !filter_cons.
  destruct (q_status q) eqn:Hq; simpl;
    repeat (case_decide; try done); simpl; lia.
Qed.

Lemma Math_min_spec xs x :
  Math_min x xs ∈ x :: xs ∧ Forall (λ y, (Math_min x xs ≤ y)%Z) (x :: xs).
Proof.
  unfold Math_min. revert x. induction xs as [|y ys IH]; intros x; simpl.
  - split; [constructor|]. by repeat constructor.
  - destruct (IH (Z.min x y)) as [Hin Hle]. split.
    + apply elem_of_cons in Hin as [Hin|Hin]; [|by do 2 constructor].
      rewrite Hin.
      destruct (Z.min_spec x y) as [[_ ->]|[_ ->]]; by repeat constructor.
    + apply Forall_cons in Hle as [Hmin Hle].
      repeat constructor; [lia..|done].
Qed.

(** X20. The numbers of [getQueueStats] add up. The total is the number of
    records in the store and the sum of the four counts by status; the
    oldest timestamp is absent exactly for the empty store, and otherwise is
    the timestamp of a queued item that no queued item precedes. *)
Theorem queue_stats_add_up store :
  let stats := getQueueStats store in
  qs_total stats = size store ∧
  qs_total stats
  = qs_pending stats + qs_uploading stats + qs_failed stats
    + qs_completed stats ∧
  (qs_oldestTimestamp stats = None ↔ store = ∅) ∧
  ∀ t, qs_oldestTimestamp stats = Some t →
    (∃ q, q ∈ getOfflineQueue store ∧ q_timestamp q = t) ∧
    ∀ q, q ∈ getOfflineQueue store → (t ≤ q_timestamp q)%Z.
Proof.
  unfold getQueueStats. simpl. split_and!.
  - unfold getOfflineQueue.
    by rewrite length_fmap, (Permutation_length (sorted_entries store)),
      length_map_to_list.
  - apply count_status_partition.
  - unfold getOfflineQueue. pose proof (sorted_entries store) as Hperm.
    destruct (merge_sort key_le (map_to_list store)) as [|kq l]; simpl.
    + split; [|done]. intros _. symmetry in Hperm.
      apply Permutation_nil_r in Hperm. by apply map_to_list_empty_iff.
    + split; [done|]. intros ->. rewrite map_to_list_empty in Hperm.
      by apply Permutation_nil_r in Hperm.
  - intros t Ht.
    destruct (q_timestamp <$> getOfflineQueue store) as [|t0 ts] eqn:Hts;
      [done|].
    injection Ht as <-.
    destruct (Math_min_spec ts t0) as [Hin Hle]. rewrite <- Hts in Hin, Hle.
    split.
    + apply list_elem_of_fmap in Hin as (q & ? & ?). by exists q.
    + intros q Hq. rewrite Forall_forall in Hle. apply Hle.
      apply list_elem_of_fmap. by exists q.
Qed.

(** X21. The store stays keyed by id. Saving a submission, changing the status
    of an item and removing an item each take a store in which every record
    sits under its own id to such a store. *)
Theorem queue_operations_keep_the_key store :
  keyed_by_id store →
  (∀ e formData images,
     keyed_by_id (fst (saveToOfflineQueue e formData images store))) ∧
  (∀ id status error,
     keyed_by_id (updateQueueItemStatus id status error store)) ∧
  (∀ id, keyed_by_id (removeFromQueue id store)).
Proof.
  intros Hkeyed. split_and!.
  - intros e formData images.
    destruct (store !! offline_id e) eqn:Hid.
    + by rewrite saveToOfflineQueue_collision.
    + rewrite saveToOfflineQueue_insert by done. simpl.
      by apply (keyed_by_id_insert store (new_contribution e formData images)).
  - intros id status error. rewrite updateQueueItemStatus_alter by done.
    apply keyed_by_id_alter; [|done]. apply set_item_status_id.
  - intros id. by apply keyed_by_id_delete.
Qed.

(** X22. Saving and then removing is a round trip. When the id drawn for a
    submission is new to the store, removing the id that
    [saveToOfflineQueue] returned gives back the store as it was before the
    save. *)
Theorem save_then_remove e formData images store :
  keyed_by_id store →
  store !! offline_id e = None →
  removeFromQueue (snd (saveToOfflineQueue e formData images store))
    (fst (saveToOfflineQueue e formData images store))
  = store.
Proof.
  intros Hkeyed Hfresh. rewrite saveToOfflineQueue_insert by done. simpl.
  unfold removeFromQueue. by apply delete_insert_id.
Qed.

(** X23. A submission whose id is already taken is lost without notice. When the
    id drawn is the id of a queued item, [saveToOfflineQueue] still returns
    that id, yet the store is the one it found: the queued item is not
    overwritten and the new submission is not stored. *)
Theorem id_collision_loses_the_submission e formData images store old :
  keyed_by_id store →
  store !! offline_id e = Some old →
  saveToOfflineQueue e formData images store = (store, offline_id e) ∧
  (new_contribution e formData images ≠ old →
   new_contribution e formData images
   ∉ getOfflineQueue (fst (saveToOfflineQueue e formData images store))).
Proof.
  intros Hkeyed Hold.
  assert (saveToOfflineQueue e formData images store = (store, offline_id e))
    as Hsave.
  { rewrite (surjective_pairing (saveToOfflineQueue _ _ _ _)).
    by rewrite saveToOfflineQueue_collision. }
  split; [done|]. rewrite Hsave. simpl. intros Hne.
  rewrite elem_of_getOfflineQueue by done. simpl. rewrite Hold. congruence.
Qed.

(** X24. A status update changes one record and only its status fields. For a
    queued item the record under its id afterwards has the new status, a
    retry count raised by one exactly when the new status is failed, the
    given error text when one is given and not empty and the old one
    otherwise, and the id, timestamp, form data and images it had; every
    other record is as before. *)
Theorem status_update_changes_one_record id status error store item :
  keyed_by_id store →
  store !! id = Some item →
  let store' := updateQueueItemStatus id status error store in
  (∃ item',
     store' !! id = Some item' ∧
     q_status item' = status ∧
     q_retryCount item'
     = (if bool_decide (status = failed) then q_retryCount item + 1
        else q_retryCount item)%Z ∧
     q_error item'
     = (match or_null error with Some e => Some e | None => q_error item end) ∧
     q_id item' = id ∧
     q_timestamp item' = q_timestamp item ∧
     q_formData item' = q_formData item ∧
     q_images item' = q_images item) ∧
  (∀ k, k ≠ id → store' !! k = store !! k) ∧
  size store' = size store.
Proof.
  intros Hkeyed Hitem. simpl. rewrite updateQueueItemStatus_alter by done.
  split_and!.
  - exists (set_item_status status error item).
    rewrite lookup_alter_eq, Hitem. simpl. split_and!; try done.
    + unfold or_null. destruct error as [e|]; [|done]. by case_bool_decide.
    + by apply Hkeyed.
  - intros k Hk. by rewrite lookup_alter_ne.
  - rewrite (alter_alt_Some _ _ _ _ Hitem). by apply map_size_insert_Some.
Qed.

(** ** The sync manager: what a pass sends, tells and retries *)

Section sync_exact.
Context (net : Network).

(** The bucket, the remote table and the progress reports after one turn. *)
Lemma sync_item_exact item w stats :
  let w' := fst (sync_item net item (w, stats)) in
  let stats' := snd (sync_item net item (w, stats)) in
  let label :=
    Some (default "Unknown location"
            (or_null (fd_beachName (q_formData item)))) in
  bucket w' = bucket w ++ stored_files net (q_id item) (upload_slots item) ∧
  (∃ rows,
     remote_rows w' = remote_rows w ++ rows ∧
     Forall2 (λ r i, resolved net i ∧ ∃ urls, r = contributionData net i urls)
       rows (filter (resolved net) [item])) ∧
  notified w'
  = notified w
    ++ [ {| total := total stats; completed_count := completed_count stats;
            failed_count := failed_count stats; current := label |};
         stats' ] ∧
  stats'
  = {| total := total stats;
       completed_count :=
         completed_count stats + length (filter (resolved net) [item]);
       failed_count :=
         failed_count stats + length (filter (λ i, ¬ resolved net i) [item]);
       current := label |}.
Proof.
  rewrite !filter_cons, !filter_nil.
  destruct (decide (¬ resolved net item)) as [Hnot|Hnot];
    destruct (decide (resolved net item)) as [Hres|Hres]; try tauto;
    pose proof Hres as Hres'; unfold resolved, sync_outcome in Hres';
    unfold sync_item, syncSingleContribution;
    destruct (promise_all (imap (upload_slot net (q_id item)) (upload_slots item)))
      as [urls|e]; try done;
    try (destruct (toISOString (q_timestamp item)) as [created|e]; try done);
    try (destruct (insert_error net (q_id item) _) as [e|]; try done);
    turn_simpl; cbn [length]; rewrite ?Nat.add_0_r, ?Nat.add_1_r;
    (split; [done|]); (split; [|by rewrite <- app_assoc]).
  - exists []. by rewrite app_nil_r.
  - exists []. by rewrite app_nil_r.
  - exists []. by rewrite app_nil_r.
  - exists [contributionData net item urls]. split; [done|].
    repeat constructor; [done|]. by exists urls.
Qed.

Lemma progress_label item :
  Some (default "Unknown location" (or_null (fd_beachName (q_formData item))))
  = Some (match fd_beachName (q_formData item) with
          | Some beach =>
              if bool_decide (beach = "") then "Unknown location" else beach
          | None => "Unknown location"
          end).
Proof.
  unfold or_null. destruct (fd_beachName (q_formData item)); [|done].
  by case_bool_decide.
Qed.

Lemma turns_exact items w stats :
  let w' := fst (turns net items (w, stats)) in
  let stats' := snd (turns net items (w, stats)) in
  let report n item :=
    {| total := total stats;
       completed_count :=
         completed_count stats + length (filter (resolved net) (take n items));
       failed_count :=
         failed_count stats
         + length (filter (λ i, ¬ resolved net i) (take n items));
       current := current (progress net items n item) |} in
  bucket w'
  = bucket w
    ++ mjoin ((λ item, stored_files net (q_id item) (upload_slots item))
                <$> items) ∧
  (∃ rows,
     remote_rows w' = remote_rows w ++ rows ∧
     Forall2 (λ r i, resolved net i ∧ ∃ urls, r = contributionData net i urls)
       rows (filter (resolved net) items)) ∧
  total stats' = total stats ∧
  completed_count stats'
  = completed_count stats + length (filter (resolved net) items) ∧
  failed_count stats'
  = failed_count stats + length (filter (λ i, ¬ resolved net i) items) ∧
  ∃ reports,
    notified w' = notified w ++ reports ∧
    length reports = 2 * length items ∧
    (∀ n item, items !! n = Some item →
       reports !! (2 * n) = Some (report n item) ∧
       reports !! (2 * n + 1) = Some (report (S n) item)) ∧
    (items ≠ [] → last reports = Some stats').
Proof.
  induction items as [|item items IH] using rev_ind.
  { simpl. rewrite !app_nil_r. split_and!; try done; try lia.
    - exists []. by rewrite app_nil_r.
    - exists []. rewrite app_nil_r. by split_and!. }
  cbv zeta in *. rewrite turns_snoc.
  destruct (turns net items (w, stats)) as [w1 stats1] eqn:Hturns.
  destruct IH as (Hb & (rows & Hr & Hrows) & Htot & Hcomp & Hfail
                  & reports & Hn & Hlen & Hreports & _).
  cbn [fst snd] in Hb, Hr, Htot, Hcomp, Hfail, Hn.
  pose proof (sync_item_exact item w1 stats1)
    as (Hb' & (rows' & Hr' & Hrows') & Hn' & Hstats').
  cbv zeta in *.
  destruct (sync_item net item (w1, stats1)) as [w2 stats2].
  cbn [fst snd] in *.
  rewrite fmap_app, join_app, !filter_app, !length_app.
  cbn [fmap list_fmap mjoin list_join].
  split_and!.
  - rewrite Hb', Hb, app_nil_r. by rewrite <- app_assoc.
  - exists (rows ++ rows'). rewrite Hr', Hr, <- app_assoc. split; [done|].
    by apply Forall2_app.
  - rewrite Hstats'. simpl. done.
  - rewrite Hstats'. cbn [completed_count]. rewrite Hcomp. lia.
  - rewrite Hstats'. cbn [failed_count]. rewrite Hfail. lia.
  - exists (reports ++ [ {| total := total stats1;
                            completed_count := completed_count stats1;
                            failed_count := failed_count stats1;
                            current := current (progress net items 0 item) |};
                         stats2 ]).
    split_and!.
    + rewrite Hn', Hn, <- app_assoc. unfold progress. cbn [current].
      by rewrite <- progress_label.
    + rewrite length_app. cbn [length]. lia.
    + intros n x Hx. unfold progress. cbn [current].
      destruct (decide (n < length items)) as [Hlt|Hge].
      * rewrite lookup_app_l in Hx by done.
        destruct (Hreports n x Hx) as [H0 H1].
        rewrite !lookup_app_l by lia.
        rewrite !take_app_le by lia. split; [exact H0|exact H1].
      * apply lookup_lt_Some in Hx as Hbound. rewrite length_app in Hbound.
        cbn [length] in Hbound.
        assert (n = length items) as -> by lia.
        rewrite lookup_app_r, Nat.sub_diag in Hx by lia.
        injection Hx as <-.
        rewrite !lookup_app_r by lia.
        replace (2 * length items - length reports) with 0 by lia.
        replace (2 * length items + 1 - length reports) with 1 by lia.
        cbn [lookup list_lookup].
        rewrite take_app_length.
        rewrite (take_ge (items ++ [item])) by (rewrite length_app; simpl; lia).
        rewrite !filter_app, !length_app.
        split; f_equal.
        -- by rewrite Htot, Hcomp, Hfail.
        -- rewrite Hstats', Htot, Hcomp, Hfail. f_equal; try lia.
           apply progress_label.
    + intros _. by rewrite last_app.
Qed.

Lemma sync_outcome_set_item_status status error item :
  sync_outcome net (set_item_status status error item) = sync_outcome net item.
Proof. reflexivity. Qed.

(** The record of a selected item whose upload or insert fails is, after
    the pass, the failed record, and the world is ready for the next
    pass. *)
Lemma pass_keeps_failing_item w item e :
  keyed_by_id (idb w) →
  isSyncing w = false →
  onLine w = true →
  item ∈ pendingItems w →
  sync_outcome net item = Rejected e →
  let w' := fst (syncQueue net w) in
  keyed_by_id (idb w') ∧ isSyncing w' = false ∧ onLine w' = true ∧
  mark_failed e item ∈ pendingItems w'.
Proof.
  intros Hk Hs Hon Hitem He. simpl.
  rewrite (syncQueue_runs net w Hs Hon). turn_simpl.
  pose proof (turns_invariant net (pendingItems w) (with_isSyncing true w)
                {| total := length (pendingItems w); completed_count := 0;
                   failed_count := 0; current := None |} Hk)
    as (Hk' & Hidb & _ & Hon' & _).
  cbv zeta in *. split_and!; [done|done|by rewrite Hon'|].
  apply pendingItems_spec; [done|]. turn_simpl. rewrite Hidb. turn_simpl.
  split; [|by right].
  change (q_id (mark_failed e item)) with (q_id item).
  rewrite (foldl_store_after_item net _ _ item)
    by (try apply pendingItems_NoDup; done).
  rewrite He. apply pendingItems_spec in Hitem as [-> _]; done.
Qed.

End sync_exact.



(** X26. What the progress listeners are told during a pass. Two reports per
    selected item and no other, the first before the item is sent and the
    second after. Each shows, at the time it is made, the number of selected
    items as total, the number of items before it in the pass that went
    through and that failed (the item itself included in the second
    report), and as current the beach name of the item in hand, or Unknown
    location when the item has none or an empty one. The last report is the
    one the pass returns. *)
Theorem pass_reports_twice_per_item net w :
  isSyncing w = false →
  onLine w = true →
  let w' := fst (syncQueue net w) in
  let stats := snd (syncQueue net w) in
  ∃ reports,
    notified w' = notified w ++ reports ∧
    length reports = 2 * length (pendingItems w) ∧
    (∀ n item, pendingItems w !! n = Some item →
       reports !! (2 * n) = Some (progress net (pendingItems w) n item) ∧
       reports !! (2 * n + 1)
       = Some (progress net (pendingItems w) (S n) item)) ∧
    (pendingItems w ≠ [] → last reports = Some stats).
Proof.
  intros Hs Hon. simpl. rewrite (syncQueue_runs net w Hs Hon). turn_simpl.
  set (stats0 := {| total := length (pendingItems w); completed_count := 0;
                    failed_count := 0; current := None |}).
  pose proof (turns_exact net (pendingItems w) (with_isSyncing true w) stats0)
    as (_ & _ & _ & _ & _ & reports & Hn & Hlen & Hreports & Hlast).
  cbv zeta in *. exists reports. split_and!; [exact Hn|exact Hlen| |exact Hlast].
  intros n item Hitem. exact (Hreports n item Hitem).
Qed.

(** X27. A failing item is retried on every pass, without limit. An item that
    is selected and whose upload or insert the network rejects is, after any
    number of passes against that network, still queued and selected, with
    its retry count raised by the number of passes and its form data and
    images as they were: no retry count takes it out of the queue. *)
Theorem failing_item_is_retried_forever net w item n :
  keyed_by_id (idb w) →
  isSyncing w = false →
  onLine w = true →
  item ∈ pendingItems w →
  ¬ resolved net item →
  ∃ item',
    item' ∈ pendingItems (run (replicate n (SyncPass net)) w) ∧
    q_id item' = q_id item ∧
    q_retryCount item' = (q_retryCount item + Z.of_nat n)%Z ∧
    q_formData item' = q_formData item ∧
    q_images item' = q_images item ∧
    q_timestamp item' = q_timestamp item.
Proof.
  revert w item. induction n as [|n IH]; intros w item Hk Hs Hon Hitem Hres.
  { exists item. simpl. split_and!; try done. lia. }
  unfold resolved in Hres.
  destruct (sync_outcome net item) as [[]|e] eqn:He; [done|].
  destruct (pass_keeps_failing_item net w item e Hk Hs Hon Hitem He)
    as (Hk' & Hs' & Hon' & Hitem').
  destruct (IH (fst (syncQueue net w)) (mark_failed e item) Hk' Hs' Hon' Hitem')
    as (item' & Hin & Hid & Hretry & Hform & Himages & Htime).
  { unfold resolved, mark_failed.
    rewrite !sync_outcome_set_item_status, He. done. }
  exists item'. split_and!; try done.
  rewrite Hretry. simpl. lia.
Qed.

(** X28. The size of a pass is what the queue statistics announce. A pass that
    runs takes on as many items as [getQueueStats] counts as pending or
    failed just before it. *)
Theorem pass_total_is_pending_plus_failed net w :
  isSyncing w = false →
  onLine w = true →
  total (snd (syncQueue net w))
  = qs_pending (getQueueStats (idb w)) + qs_failed (getQueueStats (idb w)).
Proof.
  intros Hs Hon. rewrite (syncQueue_runs net w Hs Hon). turn_simpl.
  set (stats0 := {| total := length (pendingItems w); completed_count := 0;
                    failed_count := 0; current := None |}).
  pose proof (turns_exact net (pendingItems w) (with_isSyncing true w) stats0)
    as (_ & _ & -> & _).
  simpl. unfold pendingItems, count_status.
  induction (getOfflineQueue (idb w)) as [|q queue IH]; [done|].
  rewrite !filter_cons. unfold selected at 1.
  repeat case_decide; repeat case_bool_decide;
    simplify_eq/=; try lia; congruence.
Qed.

(** ** Progress listeners *)

(** X29. Unsubscribing removes the callback altogether. The function
    [onSyncProgress] hands back leaves no registration of the callback in
    the list, keeps every other listener in place, and so undoes the
    subscription when the callback was new; when the callback was already
    registered, that earlier registration goes as well. After it no report
    reaches the callback. *)
Theorem unsubscribe_removes_the_callback callback syncListeners :
  let listeners := fst (onSyncProgress callback syncListeners) in
  let unsubscribe := snd (onSyncProgress callback syncListeners) in
  callback ∈ listeners ∧
  (∀ current,
     (callback ∉ unsubscribe current) ∧
     (unsubscribe current `sublist_of` current) ∧
     (∀ other, other ≠ callback →
               other ∈ unsubscribe current ↔ other ∈ current) ∧
     ∀ stats, callback ∉ (notify_listeners stats (unsubscribe current)).*1) ∧
  (∀ later,
     callback ∉ syncListeners → callback ∉ later →
     unsubscribe (listeners ++ later) = syncListeners ++ later) ∧
  (callback ∈ syncListeners → unsubscribe listeners ≠ syncListeners).
Proof.
  unfold onSyncProgress. simpl.
  assert (∀ l : list Callback,
            callback ∉ l → filter (λ cb, cb ≠ callback) l = l) as Hid.
  { intros l Hl. induction l as [|cb l IH]; [done|].
    apply not_elem_of_cons in Hl as [? ?].
    rewrite filter_cons_True by done. by rewrite IH. }
  split_and!.
  - apply elem_of_app. right. constructor.
  - intros current.
    assert (callback ∉ filter (λ cb, cb ≠ callback) current) as Hout.
    { rewrite list_elem_of_filter. intros [? _]. congruence. }
    split_and!; [done|apply sublist_filter| |].
    + intros other Hother. rewrite list_elem_of_filter. tauto.
    + intros stats. unfold notify_listeners.
      rewrite <- list_fmap_compose.
      intros (cb & -> & ?)%list_elem_of_fmap. done.
  - intros later Hnew Hlater.
    rewrite !filter_app, (Hid syncListeners), (Hid later) by done.
    rewrite filter_cons_False by congruence. by rewrite filter_nil, app_nil_r.
  - intros Hin Heq.
    assert (callback ∈ filter (λ cb, cb ≠ callback) (syncListeners ++ [callback]))
      as Hc by (by rewrite Heq).
    apply list_elem_of_filter in Hc as [? _]. congruence.
Qed.

(** ** The extension [uploadFile] gives a stored object *)

Lemma split_on_last c s :
  ∃ x xs,
    split_on c s = x :: xs ∧
    ((xs = [] ∧ x = s) ∨
     (xs ≠ [] ∧ ∃ stem, s = stem +:+ String c (List.last xs ""))) ∧
    Forall (λ piece, c ∉ String.list_ascii_of_string piece) (x :: xs).
Proof.
  induction s as [|a rest (x & xs & Hsplit & Hlast & Hpieces)]; simpl.
  { exists "", []. split_and!; [done|by left|].
    repeat constructor. simpl. apply not_elem_of_nil. }
  rewrite Hsplit. case_bool_decide as Ha.
  - subst a. exists "", (x :: xs). split_and!; [done| |].
    + right. split; [done|]. destruct Hlast as [[-> ->]|[Hxs [stem ->]]].
      * by exists "".
      * exists (String c stem). destruct xs; done.
    + constructor; [simpl; apply not_elem_of_nil|done].
  - exists (String a x), xs. split_and!; [done| |].
    + destruct Hlast as [[-> ->]|[Hxs [stem ->]]]; [by left|].
      right. split; [done|]. by exists (String a stem).
    + apply Forall_cons in Hpieces as [Hx Hxs]. constructor; [|done].
      simpl. apply not_elem_of_cons. split; [congruence|done].
Qed.

Lemma last_nonempty {A} (l : list A) d d' :
  l ≠ [] → List.last l d = List.last l d' ∧ List.last l d ∈ l.
Proof.
  induction l as [|x [|y l] IH]; intros Hl;
    [done|simpl; split; [done|constructor]|].
  destruct IH as [IH1 IH2]; [done|].
  change (List.last (x :: y :: l) d) with (List.last (y :: l) d).
  change (List.last (x :: y :: l) d') with (List.last (y :: l) d').
  split; [done|]. apply elem_of_cons. by right.
Qed.

(** X30. The extension is what follows the last dot of the name. For a file
    with a name the extension holds no dot, and the name is either some
    stem, a dot and the extension, or, when the name has no dot at all, the
    extension itself: a name without a dot is taken whole as the
    extension. *)
Theorem fileExt_follows_the_last_dot file :
  file_name file ≠ "" →
  ("."%char ∉ String.list_ascii_of_string (fileExt file)) ∧
  ((∃ stem, file_name file = stem +:+ "." +:+ fileExt file) ∨
   (("."%char ∉ String.list_ascii_of_string (file_name file)) ∧
    fileExt file = file_name file)).
Proof.
  intros Hname. unfold fileExt, pop.
  rewrite bool_decide_eq_false_2 by done.
  destruct (split_on_last "."%char (file_name file))
    as (x & xs & -> & Hlast & Hpieces).
  destruct Hlast as [[-> ->]|[Hxs [stem Hstem]]].
  - apply Forall_cons in Hpieces as [? _]. simpl. split; [done|]. by right.
  - assert (List.last (x :: xs) "undefined" = List.last xs "") as ->.
    { destruct xs as [|y ys]; [done|].
      change (List.last (x :: y :: ys) "undefined")
        with (List.last (y :: ys) "undefined").
      by apply last_nonempty. }
    split.
    + apply Forall_cons in Hpieces as [_ Hpieces].
      rewrite Forall_forall in Hpieces. apply Hpieces.
      by apply (last_nonempty xs "" "").
    + left. exists stem. exact Hstem.
Qed.

(** ** The further properties at concrete inputs *)

Lemma unknown_contribution_is_refused_witness :
  select_status (with_contributions small_db [])
    (p_contribution_id (classify_args (Some "high"))) = None ∧
  ∃ r, classify_contribution admin_session (classify_args (Some "high"))
         (with_contributions small_db [])
       = (with_contributions small_db [], r) ∧
       success r = false.
Proof.
  split; [reflexivity|].
  exact (proj1 (unknown_contribution_is_refused admin_session
                  (classify_args (Some "high")) (Some "admin-1") None
                  (with_contributions small_db []) eq_refl)).
Defined.

Lemma unique_contribution_is_kept_witness :
  unique_contribution small_db ∧
  unique_contribution
    (fst (classify_contribution admin_session (classify_args (Some "high"))
            small_db)).
Proof.
  assert (unique_contribution small_db) as Hunique by (vm_compute; constructor).
  split; [exact Hunique|].
  exact (proj1 (unique_contribution_is_kept admin_session
                  (classify_args (Some "high")) (Some "c-1") (Some "admin-1")
                  None small_db Hunique)).
Defined.

Lemma other_contributions_are_untouched_witness :
  p_contribution_id (classify_args (Some "high")) = Some "c-1" ∧
  filter (λ c, c_id c ≠ "c-1")
    (contributions
       (fst (classify_contribution admin_session (classify_args (Some "high"))
               small_db)))
  = filter (λ c, c_id c ≠ "c-1") (contributions small_db).
Proof.
  split; [reflexivity|].
  exact (proj1 (other_contributions_are_untouched admin_session
                  (classify_args (Some "high")) (Some "admin-1") None
                  small_db "c-1" eq_refl)).
Defined.

Lemma classification_row_after_classify_witness :
  unique_contribution small_db ∧
  success (snd (classify_contribution admin_session
                  (classify_args (Some "high")) small_db)) = true ∧
  ∃ row,
    rows_for "c-1"
      (fst (classify_contribution admin_session (classify_args (Some "high"))
              small_db)) = [row] ∧
    Some (cl_brand row) = Some "Acme" ∧
    cl_classified_at row = 1700000000%Z.
Proof.
  assert (unique_contribution small_db) as Hunique by (vm_compute; constructor).
  split; [exact Hunique|]. split; [vm_compute; reflexivity|].
  destruct (classification_row_after_classify admin_session
              (classify_args (Some "high")) small_db
              (fst (classify_contribution admin_session
                      (classify_args (Some "high")) small_db))
              (snd (classify_contribution admin_session
                      (classify_args (Some "high")) small_db))
              "c-1" Hunique eq_refl (surjective_pairing _) eq_refl)
    as (row & Hrows & Hbrand & _ & _ & _ & _ & _ & _ & _ & _ & _ & _ & Hat & _).
  exists row. split; [exact Hrows|]. split; [|exact Hat].
  symmetry. exact Hbrand.
Defined.

Lemma second_call_is_logged_by_the_first_witness :
  success (snd (classify_contribution admin_session
                  (classify_args (Some "high")) small_db)) = true ∧
  success (snd (classify_contribution later_session
                  (classify_args (Some "low"))
                  (fst (classify_contribution admin_session
                          (classify_args (Some "high")) small_db)))) = true ∧
  ∃ h,
    last (review_history
            (fst (classify_contribution later_session
                    (classify_args (Some "low"))
                    (fst (classify_contribution admin_session
                            (classify_args (Some "high")) small_db)))))
    = Some h ∧
    rh_action h = "reclassified" ∧
    rh_previous_status h = Some "classified".
Proof.
  split; [vm_compute; reflexivity|]. split; [vm_compute; reflexivity|].
  exact (proj1 (second_call_is_logged_by_the_first admin_session later_session
                  (classify_args (Some "high")) (classify_args (Some "low"))
                  (Some "admin-1") None small_db "c-1" eq_refl eq_refl)
           _ _ _ _ (surjective_pairing _) eq_refl
           (surjective_pairing _) eq_refl).
Defined.

Lemma caller_without_role_is_treated_as_admin_witness :
  is_admin (jwt anonymous_session) = None ∧
  classify_contribution anonymous_session (classify_args (Some "high")) small_db
  = classify_contribution (as_admin anonymous_session)
      (classify_args (Some "high")) small_db ∧
  success (snd (classify_contribution anonymous_session
                  (classify_args (Some "high")) small_db)) = true.
Proof.
  split; [reflexivity|]. split; [|vm_compute; reflexivity].
  exact (proj1 (caller_without_role_is_treated_as_admin anonymous_session
                  (classify_args (Some "high")) (Some "c-1") (Some "admin-1")
                  None small_db eq_refl)).
Defined.

Lemma only_admins_change_status_witness :
  is_admin (auth_jwt a_contributor) ≠ Some true ∧
  can_update a_contributor (Some "user-7") "pending" (Some "user-7") "pending"
  = true ∧
  is_owner a_contributor (Some "user-7") = Some true.
Proof.
  assert (is_admin (auth_jwt a_contributor) ≠ Some true) as Hrole
    by (vm_compute; discriminate).
  split; [exact Hrole|]. split; [reflexivity|].
  destruct (only_admins_change_status a_contributor (Some "user-7") "pending"
              (Some "user-7") "pending" Hrole eq_refl) as (_ & _ & Howner & _).
  exact Howner.
Defined.

Lemma reviewed_contribution_is_closed_witness :
  p_contribution_id (classify_args (Some "high")) = Some "c-1" ∧
  is_admin (auth_jwt a_contributor) ≠ Some true ∧
  select_status
    (fst (classify_contribution admin_session (classify_args (Some "high"))
            small_db)) (Some "c-1") = Some "classified" ∧
  can_select a_contributor (Some "user-7") "classified" = true ∧
  can_delete a_contributor (Some "user-7") "classified" = false ∧
  can_update a_contributor (Some "user-7") "classified"
    (Some "user-7") "pending" = false.
Proof.
  assert (is_admin (auth_jwt a_contributor) ≠ Some true) as Hrole
    by (vm_compute; discriminate).
  split; [reflexivity|]. split; [exact Hrole|].
  split; [vm_compute; reflexivity|].
  destruct (proj1 (reviewed_contribution_is_closed admin_session
                     (classify_args (Some "high")) (Some "admin-1") None
                     small_db "c-1" a_contributor (Some "user-7") eq_refl)
              _ _ "classified" (surjective_pairing _) eq_refl eq_refl)
    as (Hselect & Hdelete & Hupdate).
  split; [exact Hselect|]. split; [exact Hdelete|].
  exact (Hupdate Hrole (Some "user-7") "pending").
Defined.

Lemma server_admin_is_database_admin_witness :
  requireAdmin (getUser review_env) = Return an_admin ∧
  is_admin (claims an_admin) = Some true.
Proof.
  split; [reflexivity|].
  exact (proj1 (server_admin_is_database_admin (getUser review_env) an_admin
                  eq_refl)).
Defined.

Lemma invalid_form_is_reported_witness :
  requireAdmin (getUser review_env) = Return an_admin ∧
  ¬ valid_form incomplete_form ∧
  classifyContribution review_env "c-1" incomplete_form small_db
  = (small_db,
     {| ar_success := false;
        ar_error :=
          Some ("Invalid data: Brand is required, Invalid enum value. "
                +:+ "Expected 'high' | 'medium' | 'low', received 'urgent'")
     |}).
Proof.
  assert (¬ valid_form incomplete_form) as Hinvalid.
  { intros [Hbrand _]. apply Hbrand. reflexivity. }
  split; [reflexivity|]. split; [exact Hinvalid|].
  etransitivity.
  - exact (proj1 (invalid_form_is_reported review_env "c-1" incomplete_form
                    small_db an_admin eq_refl Hinvalid)).
  - vm_compute. reflexivity.
Defined.

Lemma review_fetch_finds_the_contribution_witness :
  requireAdmin (getUser review_env) = Return an_admin ∧
  rf_data (getContributionForReview review_env (λ _, Some "user-7") "c-1"
             small_db) = Some pending_contribution ∧
  rf_success (getContributionForReview review_env (λ _, Some "user-7") "c-1"
                small_db) = true.
Proof.
  split; [reflexivity|]. split; [vm_compute; reflexivity|].
  destruct (review_fetch_finds_the_contribution review_env
              (λ _, Some "user-7") "c-1" small_db an_admin eq_refl)
    as (_ & Hdata & _).
  destruct (Hdata pending_contribution) as [Hsuccess _].
  { vm_compute. reflexivity. }
  exact Hsuccess.
Defined.

Lemma queue_operations_keep_the_key_witness :
  keyed_by_id a_store ∧
  keyed_by_id (updateQueueItemStatus "offline_1_a" failed
                 (Some "TypeError: Failed to fetch") a_store).
Proof.
  split; [exact a_store_keyed|].
  destruct (queue_operations_keep_the_key a_store a_store_keyed)
    as (_ & Hupdate & _).
  exact (Hupdate "offline_1_a" failed (Some "TypeError: Failed to fetch")).
Defined.

Lemma save_then_remove_witness :
  keyed_by_id a_store ∧
  a_store !! offline_id an_entropy = None ∧
  removeFromQueue
    (snd (saveToOfflineQueue an_entropy (a_form "South Beach") four_images
            a_store))
    (fst (saveToOfflineQueue an_entropy (a_form "South Beach") four_images
            a_store))
  = a_store.
Proof.
  split; [exact a_store_keyed|]. split; [exact fresh_offline_id|].
  exact (save_then_remove an_entropy (a_form "South Beach") four_images a_store
           a_store_keyed fresh_offline_id).
Defined.

Lemma id_collision_loses_the_submission_witness :
  keyed_by_id a_store ∧
  a_store !! offline_id a_repeated_entropy
  = Some (queued "offline_1_a" pending 0) ∧
  saveToOfflineQueue a_repeated_entropy (a_form "South Beach") four_images
    a_store
  = (a_store, offline_id a_repeated_entropy).
Proof.
  assert (a_store !! offline_id a_repeated_entropy
          = Some (queued "offline_1_a" pending 0)) as Htaken
    by (vm_compute; reflexivity).
  split; [exact a_store_keyed|]. split; [exact Htaken|].
  exact (proj1 (id_collision_loses_the_submission a_repeated_entropy
                  (a_form "South Beach") four_images a_store
                  (queued "offline_1_a" pending 0) a_store_keyed Htaken)).
Defined.

Lemma status_update_changes_one_record_witness :
  keyed_by_id a_store ∧
  a_store !! "offline_2_b" = Some (queued "offline_2_b" failed 1) ∧
  ∃ item',
    updateQueueItemStatus "offline_2_b" failed
      (Some "TypeError: Failed to fetch") a_store !! "offline_2_b"
    = Some item' ∧
    q_status item' = failed ∧
    q_retryCount item' = 2%Z.
Proof.
  assert (a_store !! "offline_2_b" = Some (queued "offline_2_b" failed 1))
    as Hitem by (vm_compute; reflexivity).
  split; [exact a_store_keyed|]. split; [exact Hitem|].
  destruct (status_update_changes_one_record "offline_2_b" failed
              (Some "TypeError: Failed to fetch") a_store
              (queued "offline_2_b" failed 1) a_store_keyed Hitem)
    as ((item' & Hlookup & Hstatus & Hretry & _) & _).
  exists item'. split; [exact Hlookup|]. split; [exact Hstatus|].
  rewrite Hretry. reflexivity.
Defined.


Lemma pass_reports_twice_per_item_witness :
  isSyncing (a_device false true) = false ∧
  onLine (a_device false true) = true ∧
  pendingItems (a_device false true) !! 1
  = Some (queued "offline_2_b" failed 1) ∧
  ∃ reports,
    notified (fst (syncQueue second_upload_fails (a_device false true)))
    = notified (a_device false true) ++ reports ∧
    length reports = 2 * length (pendingItems (a_device false true)) ∧
    reports !! 2
    = Some {| total := 3; completed_count := 1; failed_count := 0;
              current := Some "offline_2_b" |} ∧
    reports !! 3
    = Some {| total := 3; completed_count := 1; failed_count := 1;
              current := Some "offline_2_b" |}.
Proof.
  assert (pendingItems (a_device false true) !! 1
          = Some (queued "offline_2_b" failed 1)) as Hitem
    by (vm_compute; reflexivity).
  split; [reflexivity|]. split; [reflexivity|]. split; [exact Hitem|].
  destruct (pass_reports_twice_per_item second_upload_fails
              (a_device false true) eq_refl eq_refl)
    as (reports & Hreports & Hlength & Hat & _).
  destruct (Hat 1 (queued "offline_2_b" failed 1) Hitem) as [Hbefore Hafter].
  exists reports.
  split; [exact Hreports|]. split; [exact Hlength|]. split.
  - etransitivity; [exact Hbefore|]. vm_compute. reflexivity.
  - etransitivity; [exact Hafter|]. vm_compute. reflexivity.
Defined.

Lemma failing_item_is_retried_forever_witness :
  keyed_by_id (idb (a_device false true)) ∧
  queued "offline_2_b" failed 1 ∈ pendingItems (a_device false true) ∧
  ¬ resolved second_upload_fails (queued "offline_2_b" failed 1) ∧
  ∃ item',
    item' ∈ pendingItems
              (run (replicate 5 (SyncPass second_upload_fails))
                 (a_device false true)) ∧
    q_id item' = "offline_2_b" ∧
    q_retryCount item' = 6%Z.
Proof.
  assert (queued "offline_2_b" failed 1 ∈ pendingItems (a_device false true))
    as Hitem.
  { apply pendingItems_spec; [exact a_store_keyed|].
    split; [vm_compute; reflexivity|right; reflexivity]. }
  assert (¬ resolved second_upload_fails (queued "offline_2_b" failed 1))
    as Hfails by (vm_compute; discriminate).
  split; [exact a_store_keyed|]. split; [exact Hitem|]. split; [exact Hfails|].
  destruct (failing_item_is_retried_forever second_upload_fails
              (a_device false true) (queued "offline_2_b" failed 1) 5
              a_store_keyed eq_refl eq_refl Hitem Hfails)
    as (item' & Hin & Hid & Hretry & _).
  exists item'. split; [exact Hin|]. split; [exact Hid|exact Hretry].
Defined.

Lemma pass_total_is_pending_plus_failed_witness :
  isSyncing (a_device false true) = false ∧
  onLine (a_device false true) = true ∧
  total (snd (syncQueue second_upload_fails (a_device false true)))
  = qs_pending (getQueueStats (idb (a_device false true)))
    + qs_failed (getQueueStats (idb (a_device false true))).
Proof.
  split; [reflexivity|]. split; [reflexivity|].
  exact (pass_total_is_pending_plus_failed second_upload_fails
           (a_device false true) eq_refl eq_refl).
Defined.

Lemma fileExt_follows_the_last_dot_witness :
  file_name (getFile (blob (a_photo "beach.day.jpg")) "beach.day.jpg") ≠ "" ∧
  "."%char ∉ String.list_ascii_of_string
               (fileExt (getFile (blob (a_photo "beach.day.jpg"))
                           "beach.day.jpg")).
Proof.
  assert (file_name (getFile (blob (a_photo "beach.day.jpg")) "beach.day.jpg")
          ≠ "") as Hname by (vm_compute; discriminate).
  split; [exact Hname|].
  exact (proj1 (fileExt_follows_the_last_dot
                  (getFile (blob (a_photo "beach.day.jpg")) "beach.day.jpg")
                  Hname)).
Defined.
